(** Verification of the SLM-200 calibration script and of the phase register
    conversion of the SLM-200 device piece.

    [calibration/calibrate.py] is written against numpy's float64.  Its
    statements are embedded once, over an interface of the float64
    operations they use, and the interface has two instances: binary64
    itself (primitive floats), on which the definitions run, and the reals
    extended with the IEEE special values, on which the general theorems are
    proved.  Of [slm_code/slm.py], the phase register conversion is
    embedded over binary64, and the actions of the piece as trees of
    hardware calls over the state of its parameters. *)

From Stdlib Require Import ZArith List Bool Lia.
From Stdlib Require Import Uint63 PrimFloat SpecFloat FloatOps.
From Stdlib Require Import Reals Lra.
From Stdlib Require String.
Import ListNotations.
Import String.StringSyntax.
Delimit Scope string_scope with string.
Bind Scope string_scope with String.string.

#[local] Set Warnings "-inexact-float".

(** * Exceptions and results *)

(** The Python exceptions the embedded statements can raise. *)
Inductive exn : Type :=
| ValueError   (* argmax / max / min of an empty sequence *)
| IndexError   (* index out of range *)
| TypeError    (* model called with the wrong number of parameters *)
| OSError      (* a data file that does not exist *)
| RuntimeError. (* raised inside scipy *)

Inductive result (A : Type) : Type :=
| Ok (a : A)
| Raise (e : exn).
Arguments Ok {A} a.
Arguments Raise {A} e.

Definition bind {A B : Type} (r : result A) (k : A -> result B) : result B :=
  match r with
  | Ok a => k a
  | Raise e => Raise e
  end.

Notation "x <- r ;; k" := (bind r (fun x => k))
  (at level 61, r at next level, right associativity).

(** * The float64 operations used by the script *)

Class NumpyFloat (F : Type) : Type := {
  np_add : F -> F -> F;
  np_sub : F -> F -> F;
  np_mul : F -> F -> F;
  np_div : F -> F -> F;       (* numpy scalar division: x/0 is inf or nan, never an exception *)
  np_abs : F -> F;
  np_sqrt : F -> F;
  np_leb : F -> F -> bool;    (* [<=]; false when an operand is nan *)
  np_isnan : F -> bool;
  np_of_Z : Z -> F;           (* an integer literal *)
  np_pi : F;                  (* np.pi *)
  np_inf : F;                 (* np.inf *)
  np_neg : F -> F
}.

(** The elementary functions of the model library. *)
Class NumpyElementary (F : Type) `{NumpyFloat F} : Type := {
  np_cos : F -> F;
  np_pow : F -> nat -> F      (* [x ** n] for a literal exponent n *)
}.

(** ** Instance 1: binary64 *)

Definition float_of_Z (z : Z) : float :=
  match z with
  | Z0 => PrimFloat.zero
  | Zpos _ => PrimFloat.of_uint63 (Uint63.of_Z z)
  | Zneg p => PrimFloat.opp (PrimFloat.of_uint63 (Uint63.of_Z (Zpos p)))
  end.

#[export] Instance float_NumpyFloat : NumpyFloat float := {|
  np_add := PrimFloat.add;
  np_sub := PrimFloat.sub;
  np_mul := PrimFloat.mul;
  np_div := PrimFloat.div;
  np_abs := PrimFloat.abs;
  np_sqrt := PrimFloat.sqrt;
  np_leb := PrimFloat.leb;
  np_isnan := PrimFloat.is_nan;
  np_of_Z := float_of_Z;
  np_pi := 0x1.921fb54442d18p+1%float;
  np_inf := PrimFloat.infinity;
  np_neg := PrimFloat.opp
|}.

(** ** Instance 2: the reals with infinities and nan

    Finite values are exact reals (no rounding, no overflow, one zero);
    the special values follow IEEE 754. *)

Inductive xreal : Type :=
| Fin (r : R)
| PInf
| NInf
| NaN.

Definition Rleb (a b : R) : bool := if Rle_dec a b then true else false.
Definition Rltb (a b : R) : bool := if Rlt_dec a b then true else false.
Definition Reqb (a b : R) : bool := if Req_dec_T a b then true else false.

(** The infinity with the sign of [r]; nan when [r] is zero. *)
Definition signed_inf (r : R) : xreal :=
  if Rltb 0 r then PInf else if Rltb r 0 then NInf else NaN.

Definition xneg (a : xreal) : xreal :=
  match a with
  | Fin r => Fin (- r)
  | PInf => NInf
  | NInf => PInf
  | NaN => NaN
  end.

Definition xadd (a b : xreal) : xreal :=
  match a, b with
  | NaN, _ | _, NaN => NaN
  | Fin x, Fin y => Fin (x + y)
  | PInf, NInf | NInf, PInf => NaN
  | PInf, _ | _, PInf => PInf
  | NInf, _ | _, NInf => NInf
  end.

Definition xsub (a b : xreal) : xreal := xadd a (xneg b).

Definition xmul (a b : xreal) : xreal :=
  match a, b with
  | NaN, _ | _, NaN => NaN
  | Fin x, Fin y => Fin (x * y)
  | Fin x, PInf | PInf, Fin x => signed_inf x
  | Fin x, NInf | NInf, Fin x => signed_inf (- x)
  | PInf, PInf | NInf, NInf => PInf
  | PInf, NInf | NInf, PInf => NInf
  end.

(** A finite zero divisor counts as +0. *)
Definition xdiv (a b : xreal) : xreal :=
  match a, b with
  | NaN, _ | _, NaN => NaN
  | Fin x, Fin y => if Reqb y 0 then signed_inf x else Fin (x / y)
  | Fin _, PInf | Fin _, NInf => Fin 0
  | PInf, Fin y => if Rltb y 0 then NInf else PInf
  | NInf, Fin y => if Rltb y 0 then PInf else NInf
  | PInf, PInf | PInf, NInf | NInf, PInf | NInf, NInf => NaN
  end.

Definition xabs (a : xreal) : xreal :=
  match a with
  | Fin r => Fin (Rabs r)
  | PInf | NInf => PInf
  | NaN => NaN
  end.

Definition xsqrt (a : xreal) : xreal :=
  match a with
  | Fin r => if Rltb r 0 then NaN else Fin (sqrt r)
  | PInf => PInf
  | NInf | NaN => NaN
  end.

Definition xleb (a b : xreal) : bool :=
  match a, b with
  | NaN, _ | _, NaN => false
  | Fin x, Fin y => Rleb x y
  | NInf, _ | _, PInf => true
  | _, _ => false
  end.

Definition xisnan (a : xreal) : bool :=
  match a with
  | NaN => true
  | _ => false
  end.

Definition xcos (a : xreal) : xreal :=
  match a with
  | Fin r => Fin (cos r)
  | _ => NaN
  end.

Definition xpow (a : xreal) (n : nat) : xreal :=
  match a with
  | Fin r => Fin (r ^ n)
  | PInf => match n with O => Fin 1 | _ => PInf end
  | NInf => match n with O => Fin 1 | _ => if Nat.even n then PInf else NInf end
  | NaN => match n with O => Fin 1 | _ => NaN end
  end.

#[export] Instance xreal_NumpyFloat : NumpyFloat xreal := {|
  np_add := xadd;
  np_sub := xsub;
  np_mul := xmul;
  np_div := xdiv;
  np_abs := xabs;
  np_sqrt := xsqrt;
  np_leb := xleb;
  np_isnan := xisnan;
  np_of_Z := fun z => Fin (IZR z);
  np_pi := Fin PI;
  np_inf := PInf;
  np_neg := xneg
|}.

#[export] Instance xreal_NumpyElementary : NumpyElementary xreal := {|
  np_cos := xcos;
  np_pow := xpow
|}.

(** The order on [xreal] that [xleb] decides. *)
Definition xle (a b : xreal) : Prop := xleb a b = true.

(** * [calibration/calibrate.py] *)

Section Calibrate.

Context {F : Type} `{NumpyFloat F}.

Local Notation "a + b" := (np_add a b).
Local Notation "a - b" := (np_sub a b).
Local Notation "a * b" := (np_mul a b).
Local Notation "a / b" := (np_div a b).
Local Notation "# z" := (np_of_Z z) (at level 5, format "# z").

(** A decimal literal [m * 10^-k]: both [m] and [10^k] are exact in
    binary64 and the division is correctly rounded, so this is the float64
    the Python literal denotes. *)
Definition decimal (m : Z) (k : nat) : F := #m / #(10 ^ Z.of_nat k).

(** [REL_Y_ERR = 0.0012] *)
Definition REL_Y_ERR : F := decimal 12 4.

(** [EPS = 1E-12] *)
Definition EPS : F := decimal 1 12.

(** ** numpy reductions and indexing *)

(** [a[i]] for a non-negative index. *)
Definition index (a : list F) (i : nat) : result F :=
  match nth_error a i with
  | Some v => Ok v
  | None => Raise IndexError
  end.

(** The scan of [np.argmax]: [best] is the running maximum, found at
    [best_i]; [i] is the index of the head of the remaining elements.  The
    running maximum is replaced when [not (x <= best)]; a nan stops the
    scan. *)
Fixpoint argmax_scan (best : F) (best_i i : nat) (l : list F) : nat :=
  match l with
  | [] => best_i
  | x :: t =>
      if np_isnan best then best_i
      else if negb (np_leb x best) then argmax_scan x i (S i) t
      else argmax_scan best best_i (S i) t
  end.

(** [np.argmax(a)]: the first index of the maximum. *)
Definition np_argmax (a : list F) : result nat :=
  match a with
  | [] => Raise ValueError
  | x :: t => Ok (argmax_scan x 0 1 t)
  end.

Fixpoint argmin_scan (best : F) (best_i i : nat) (l : list F) : nat :=
  match l with
  | [] => best_i
  | x :: t =>
      if np_isnan best then best_i
      else if negb (np_leb best x) then argmin_scan x i (S i) t
      else argmin_scan best best_i (S i) t
  end.

(** [np.argmin(a)]: the first index of the minimum. *)
Definition np_argmin (a : list F) : result nat :=
  match a with
  | [] => Raise ValueError
  | x :: t => Ok (argmin_scan x 0 1 t)
  end.

(** [np.maximum(a, b)]: nan propagates.  Which of two equal zeros of
    different sign is returned is not tracked. *)
Definition np_maximum (a b : F) : F :=
  if np_isnan a then a else if np_leb b a then a else b.

Definition np_minimum (a b : F) : F :=
  if np_isnan a then a else if np_leb a b then a else b.

(** [np.max(a)] *)
Definition np_max (a : list F) : result F :=
  match a with
  | [] => Raise ValueError
  | x :: t => Ok (fold_left np_maximum t x)
  end.

(** [np.min(a)] *)
Definition np_min (a : list F) : result F :=
  match a with
  | [] => Raise ValueError
  | x :: t => Ok (fold_left np_minimum t x)
  end.

(** ** Stage 0: guess and bounds from the raw dataset (lines 85-96) *)

Record GuessBounds : Type := {
  guess : list F;
  lower : list F;
  upper : list F
}.

Definition stage0 (grey intensity : list F) : result GuessBounds :=
  (* ps_guess = grey[np.argmax(intensity[:30])] *)
  ipk <- np_argmax (firstn 30 intensity) ;;
  ps_guess <- index grey ipk ;;
  (* scale_guess = np.max(intensity) *)
  scale_guess <- np_max intensity ;;
  (* freq_guess = np.pi / (2 * np.abs(grey[np.argmax(intensity[:30])]
                                      - grey[np.argmin(intensity)])) *)
  ipk' <- np_argmax (firstn 30 intensity) ;;
  g_peak <- index grey ipk' ;;
  imn <- np_argmin intensity ;;
  g_min <- index grey imn ;;
  let freq_guess := np_pi / (#2 * np_abs (g_peak - g_min)) in
  (* i_shift = np.min(intensity) *)
  i_shift <- np_min intensity ;;
  let p_guess0 := [ps_guess; scale_guess; freq_guess; i_shift] in
  let ps_lower := ps_guess - #50 in
  let ps_upper := ps_guess + #50 in
  let scale_lower := scale_guess - #10 * i_shift in
  let scale_upper := scale_guess + #10 * i_shift in
  let freq_lower := np_pi / #1023 in
  let freq_upper := #2 * freq_guess - np_pi / #1023 in
  let is_lower := #0 in
  let is_upper := #10 * i_shift in
  let lower0 := [ps_lower; scale_lower; freq_lower; is_lower] in
  let upper0 := [ps_upper; scale_upper; freq_upper; is_upper] in
  Ok {| guess := p_guess0; lower := lower0; upper := upper0 |}.

(** ** Stage k > 0: guess and bounds from the previous fit

    Lines 104-106 (stage 1) and 113-115 (stage 2); the script carries these
    statements commented out.  Both stages are the same construction:
      [p_guess = np.append(p_optimize, 0.0)]
      [lower   = np.append(p_optimize - EPS, [-np.inf])]
      [upper   = np.append(p_optimize + EPS, [np.inf])] *)
Definition next_stage (p_optimize : list F) : GuessBounds :=
  {| guess := p_optimize ++ [#0];
     lower := map (fun v => v - EPS) p_optimize ++ [np_neg np_inf];
     upper := map (fun v => v + EPS) p_optimize ++ [np_inf] |}.

(** ** Nonlinearity and its error bars

    Lines 122 and 126-129, also commented out in the script. *)

(** [np.diag(cov)] of a 2-D array: the entries [cov[i][i]] while both the
    row and the column exist. *)
Fixpoint diag_from (i : nat) (rows : list (list F)) : list F :=
  match rows with
  | [] => []
  | r :: t =>
      match nth_error r i with
      | Some v => v :: diag_from (S i) t
      | None => []
      end
  end.

Definition np_diag (cov : list (list F)) : list F := diag_from 0 cov.

Record Nonlinearity : Type := {
  nonlinearity1 : F;
  nonlinearity2 : F;
  err : F * F
}.

Definition aggregate (p_optimize2 : list F) (cov : list (list F))
  : result Nonlinearity :=
  (* p_var = np.diag(cov) *)
  let p_var := np_diag cov in
  (* nonlinearity1[i] = p_optimize2[4] / p_optimize2[2] *)
  p4 <- index p_optimize2 4 ;;
  p2 <- index p_optimize2 2 ;;
  let n1 := p4 / p2 in
  (* nonlinearity2[i] = p_optimize2[5] / p_optimize2[2] *)
  p5 <- index p_optimize2 5 ;;
  p2' <- index p_optimize2 2 ;;
  let n2 := p5 / p2' in
  (* err[i] = np.array([np.sqrt(p_var[2] + p_var[4]),
                        np.sqrt(p_var[2] + p_var[5])]) *)
  v2 <- index p_var 2 ;;
  v4 <- index p_var 4 ;;
  v2' <- index p_var 2 ;;
  v5 <- index p_var 5 ;;
  Ok {| nonlinearity1 := n1;
        nonlinearity2 := n2;
        err := (np_sqrt (v2 + v4), np_sqrt (v2' + v5)) |}.

(** ** The fit call and the script *)

(** The three model functions, as values passed to [sp.curve_fit]. *)
Inductive model : Type :=
| linear_cos_square_f
| nonlinear1_cos_square_f
| nonlinear2_cos_square_f.

(** The arguments of one [sp.curve_fit(f, xdata, ydata, p0=..., sigma=...,
    absolute_sigma=..., bounds=(lo, hi))] call. *)
Record FitCall : Type := {
  f : model;
  xdata : list F;
  ydata : list F;
  p0 : list F;
  sigma : list F;
  absolute_sigma : bool;
  bounds : list F * list F
}.

(** What [sp.curve_fit] returns: [(popt, pcov)]. *)
Definition FitResult : Type := (list F * list (list F))%type.

(** The script as a tree of its effects: the calls into scipy and the
    printed lines.  Plotting statements are left out. *)
Inductive script (A : Type) : Type :=
| Return (a : A)
| Throw (e : exn)
| CurveFit (c : FitCall) (k : FitResult -> script A)
| Print (v : list F) (k : script A).
Arguments Return {A} a.
Arguments Throw {A} e.
Arguments CurveFit {A} c k.
Arguments Print {A} v k.

Fixpoint seq_script {A B : Type} (s : script A) (k : A -> script B)
  : script B :=
  match s with
  | Return a => k a
  | Throw e => Throw e
  | CurveFit c h => CurveFit c (fun r => seq_script (h r) k)
  | Print v s' => Print v (seq_script s' k)
  end.

(** The stage-0 call of lines 98-101. *)
Definition stage0_call (grey intensity : list F) (gb : GuessBounds)
  : FitCall :=
  {| f := linear_cos_square_f;
     xdata := grey;
     ydata := intensity;
     p0 := guess gb;
     sigma := map (fun y => REL_Y_ERR * y) intensity;
     absolute_sigma := true;
     bounds := (lower gb, upper gb) |}.

(** Lines 85-102 on the two arrays that [np.loadtxt] returned. *)
Definition fit_dataset (grey intensity : list F) : script unit :=
  match stage0 grey intensity with
  | Raise e => Throw e
  | Ok gb =>
      CurveFit (stage0_call grey intensity gb)
               (fun r => let p_optimize0 := fst r in
                         Print p_optimize0 (Return tt))
  end.

(** [grey, intensity = np.loadtxt(path, dtype=float, delimiter='\t',
    unpack=True)] on a two-column file given by its rows.  With two rows or
    more the result is the two columns.  [np.loadtxt] squeezes a one-row
    table to a 1-D array, so [grey] and [intensity] become scalars and the
    slice [intensity[:30]] raises; an empty table cannot be unpacked. *)
Definition body_on_file (rows : list (F * F)) : script unit :=
  match rows with
  | [] => Throw ValueError
  | [_] => Throw IndexError
  | _ => fit_dataset (map fst rows) (map snd rows)
  end.

Fixpoint for_each (l : list nat) (body : nat -> script unit) : script unit :=
  match l with
  | [] => Return tt
  | i :: t => seq_script (body i) (fun _ => for_each t body)
  end.

(** The module-level loop, [for i in range(1): ...], over the contents of
    the files named by [data_paths], in that order. *)
Definition main (files : list (list (F * F))) : script unit :=
  for_each (seq 0 1)
    (fun i => match nth_error files i with
              | Some rows => body_on_file rows
              | None => Throw OSError
              end).

(** ** Running a script against a solver

    [sp.curve_fit] is scipy's; it is a relation between a call and what the
    call returns or raises. *)
Inductive event : Type :=
| EvFit (c : FitCall) (r : result FitResult)
| EvPrint (v : list F).

Section Runs.

Variable solver : FitCall -> result FitResult -> Prop.

Inductive runs {A : Type} : script A -> list event -> result A -> Prop :=
| runs_return a :
    runs (Return a) [] (Ok a)
| runs_throw e :
    runs (Throw e) [] (Raise e)
| runs_fit c k r tr out :
    solver c (Ok r) -> runs (k r) tr out ->
    runs (CurveFit c k) (EvFit c (Ok r) :: tr) out
| runs_fit_raise c k e :
    solver c (Raise e) ->
    runs (CurveFit c k) [EvFit c (Raise e)] (Raise e)
| runs_print v k tr out :
    runs k tr out ->
    runs (Print v k) (EvPrint v :: tr) out.

End Runs.

(** The fit calls of a trace, in order. *)
Fixpoint fit_calls (tr : list event) : list FitCall :=
  match tr with
  | [] => []
  | EvFit c _ :: t => c :: fit_calls t
  | EvPrint _ :: t => fit_calls t
  end.

(** ** The model library (lines 59-69) *)

Section Models.

Context `{!NumpyElementary F}.

Local Notation "a ** n" := (np_pow a n) (at level 30, right associativity).

(** [a * np.cos(b * (x - x0)) ** 2 + c] *)
Definition linear_cos_square (x x0 a b c : F) : F :=
  a * np_cos (b * (x - x0)) ** 2 + c.

(** [a * (np.cos(d * (x - x0) ** 2 + b * (x - x0)) ** 2) + c] *)
Definition nonlinear1_cos_square (x x0 a b c d : F) : F :=
  a * (np_cos (d * (x - x0) ** 2 + b * (x - x0)) ** 2) + c.

(** [a * np.cos(e * (x - x0) ** 3 + d * (x - x0) ** 2 + b * (x - x0)) ** 2 + c] *)
Definition nonlinear2_cos_square (x x0 a b c d e : F) : F :=
  a * np_cos (e * (x - x0) ** 3 + d * (x - x0) ** 2 + b * (x - x0)) ** 2 + c.

(** [f(x, *p)]: the call [curve_fit] makes; a parameter vector of the wrong
    length is a [TypeError]. *)
Definition call_model (m : model) (x : F) (p : list F) : result F :=
  match m, p with
  | linear_cos_square_f, [x0; a; b; c] =>
      Ok (linear_cos_square x x0 a b c)
  | nonlinear1_cos_square_f, [x0; a; b; c; d] =>
      Ok (nonlinear1_cos_square x x0 a b c d)
  | nonlinear2_cos_square_f, [x0; a; b; c; d; e] =>
      Ok (nonlinear2_cos_square x x0 a b c d e)
  | _, _ => Raise TypeError
  end.

End Models.

End Calibrate.

Arguments GuessBounds F : clear implicits.
Arguments Nonlinearity F : clear implicits.
Arguments FitCall F : clear implicits.
Arguments FitResult F : clear implicits.
Arguments script F A : clear implicits.
Arguments event F : clear implicits.
Arguments Return {F A} a.
Arguments Throw {F A} e.
Arguments CurveFit {F A} c k.
Arguments Print {F A} v k.

(** ** The model library as the specification writes it, over the reals *)

Module Spec.

Local Open Scope R_scope.

(** linear(x; x0, a, b, c) = a cos(b (x - x0))^2 + c *)
Definition linear (x x0 a b c : R) : R :=
  a * (cos (b * (x - x0)))^2 + c.

(** first_order(x; x0, a, b, c, d) = a cos(d (x - x0)^2 + b (x - x0))^2 + c *)
Definition first_order (x x0 a b c d : R) : R :=
  a * (cos (d * (x - x0)^2 + b * (x - x0)))^2 + c.

(** second_order(x; x0, a, b, c, d, e)
      = a cos(e (x - x0)^3 + d (x - x0)^2 + b (x - x0))^2 + c *)
Definition second_order (x x0 a b c d e : R) : R :=
  a * (cos (e * (x - x0)^3 + d * (x - x0)^2 + b * (x - x0)))^2 + c.

(** [i] is the index of the maximum of [ys], the first one if the maximum
    occurs more than once, and [y] is that maximum. *)
Definition is_first_argmax (ys : list R) (i : nat) (y : R) : Prop :=
  nth_error ys i = Some y /\
  (forall j z, nth_error ys j = Some z -> z <= y) /\
  (forall j z, (j < i)%nat -> nth_error ys j = Some z -> z < y).

Definition is_first_argmin (ys : list R) (i : nat) (y : R) : Prop :=
  nth_error ys i = Some y /\
  (forall j z, nth_error ys j = Some z -> y <= z) /\
  (forall j z, (j < i)%nat -> nth_error ys j = Some z -> y < z).

(** [m] is the maximum of [ys]. *)
Definition is_max (ys : list R) (m : R) : Prop :=
  In m ys /\ forall y, In y ys -> y <= m.

Definition is_min (ys : list R) (m : R) : Prop :=
  In m ys /\ forall y, In y ys -> m <= y.

(** frequency guess = pi / (2 |greyscale_at_peak - greyscale_at_min|), a
    float64 division. *)
Definition freq_guess (g_peak g_min : R) : xreal :=
  xdiv (Fin PI) (Fin (2 * Rabs (g_peak - g_min))).

(** The stage-0 guess and bound box, from the greyscale at the peak of the
    first 30 samples, the greyscale at the minimum, and the largest and the
    smallest intensity. *)
Definition stage0_box (g_peak g_min y_max y_min : R) : GuessBounds xreal :=
  {| guess := [Fin g_peak; Fin y_max; freq_guess g_peak g_min; Fin y_min];
     lower := [Fin (g_peak - 50); Fin (y_max - 10 * y_min);
               Fin (PI / 1023); Fin 0];
     upper := [Fin (g_peak + 50); Fin (y_max + 10 * y_min);
               xsub (xmul (Fin 2) (freq_guess g_peak g_min)) (Fin (PI / 1023));
               Fin (10 * y_min)] |}.

(** Var(param[k]): the k-th diagonal entry of a covariance matrix. *)
Definition variance {F : Type} (cov : list (list F)) (k : nat) : option F :=
  match nth_error cov k with
  | Some row => nth_error row k
  | None => None
  end.

(** lower <= guess <= upper for parameter [k] of a guess/bounds triple. *)
Definition bound_holds (gb : GuessBounds xreal) (k : nat) : Prop :=
  exists lo g hi,
    nth_error (lower gb) k = Some lo /\
    nth_error (guess gb) k = Some g /\
    nth_error (upper gb) k = Some hi /\
    xle lo g /\ xle g hi.

(** A dataset of finite reals as the rows of a data file. *)
Definition finite_rows (rows : list (R * R)) : list (xreal * xreal) :=
  map (fun row => (Fin (fst row), Fin (snd row))) rows.

(** The three-stage cascade was performed for every supplied dataset: the
    trace holds a fit of each of the three models on each dataset. *)
Definition cascade_complete {F : Type} (files : list (list (F * F)))
           (tr : list (event F)) : Prop :=
  forall rows, In rows files ->
  forall m : model,
  exists c, In c (fit_calls tr) /\ f c = m /\
            xdata c = map fst rows /\ ydata c = map snd rows.

(** The weighted least-squares objective of the fit engine,
    sum_i (intensity_i - model(x_i; p))^2 / sigma_i^2. *)
Fixpoint weighted_sse {F : Type} `{NumpyElementary F}
         (m : model) (xs ys sigmas p : list F) : result F :=
  match xs, ys, sigmas with
  | [], [], [] => Ok (np_of_Z 0)
  | x :: xs', y :: ys', s :: sigmas' =>
      v <- call_model m x p ;;
      rest <- weighted_sse m xs' ys' sigmas' p ;;
      Ok (np_add (np_div (np_pow (np_sub y v) 2) (np_pow s 2)) rest)
  | _, _, _ => Raise ValueError
  end.

(** [p] lies in the bound box. *)
Definition in_box {F : Type} `{NumpyFloat F} (lo hi p : list F) : Prop :=
  Forall2 (fun l v => np_leb l v = true) lo p /\
  Forall2 (fun v h => np_leb v h = true) p hi.

(** [popt] minimises the objective over the bound box: it lies in the box
    and no point of the box has a strictly smaller objective. *)
Definition weighted_ls_minimum {F : Type} `{NumpyElementary F}
           (m : model) (xs ys sigmas lo hi popt : list F) : Prop :=
  in_box lo hi popt /\
  exists v, weighted_sse m xs ys sigmas popt = Ok v /\
            forall q vq, in_box lo hi q ->
                         weighted_sse m xs ys sigmas q = Ok vq ->
                         np_leb vq v = true -> np_leb v vq = true.

(** Parameter-vector lengths of the three variants. *)
Definition arity (m : model) : nat :=
  match m with
  | linear_cos_square_f => 4
  | nonlinear1_cos_square_f => 5
  | nonlinear2_cos_square_f => 6
  end.

End Spec.

(** A solver that returns its initial guess and no covariance; it stands
    for [sp.curve_fit] where a concrete run is wanted. *)
Definition echo_solver {F : Type} (c : FitCall F)
           (r : result (FitResult F)) : Prop :=
  r = Ok (p0 c, []).

(** A dataset the linear model fits exactly: (0, 4), (1, 1) is
    3 cos((pi/2) x)^2 + 1.  It serves as a running example of a fit. *)
Module PerfectFit.

Definition rows : list (R * R) := [(0, 4); (1, 1)]%R.

Definition popt : list xreal := [Fin 0; Fin 3; Fin (PI / 2); Fin 1].

Definition call : FitCall xreal :=
  stage0_call (map Fin (map fst rows)) (map Fin (map snd rows))
              (Spec.stage0_box 0 1 4 1).

(** A solver that answers this one call with [popt]. *)
Definition solver (c : FitCall xreal) (r : result (FitResult xreal)) : Prop :=
  c = call /\ r = Ok (popt, []).

End PerfectFit.

(** Values that are not negative: a finite real >= 0, +inf or nan. *)
Definition xnonneg (v : xreal) : Prop :=
  match v with
  | Fin r => (0 <= r)%R
  | NInf => False
  | PInf | NaN => True
  end.

(** * Device layer: the phase register ([slm_code/slm.py]) *)

Module Slm.

(** Python's [int(x)] on a float: truncation toward zero.  A binary64
    finite value is [m * 2^e]; infinities and nan raise in Python. *)
Definition py_int (x : float) : option Z :=
  match Prim2SF x with
  | S754_zero _ => Some 0%Z
  | S754_finite s m e =>
      let mag := match e with
                 | Z0 => Zpos m
                 | Zpos k => Z.shiftl (Zpos m) (Zpos k)
                 | Zneg k => Z.shiftr (Zpos m) (Zpos k)
                 end in
      Some (if s then Z.opp mag else mag)
  | S754_infinity _ => None
  | S754_nan => None
  end.

(** Python's true division of two ints, [n / d], for ints that are exact
    in binary64. *)
Definition py_truediv_int (n d : Z) : float :=
  PrimFloat.div (float_of_Z n) (float_of_Z d).

(** [set_tuning]: [phase = int(self.params['Phase'].value * 100)]. *)
Definition set_tuning_phase (phase_value : float) : option Z :=
  py_int (PrimFloat.mul phase_value (float_of_Z 100)).

(** [toggle_open] / [phase_settings]:
    [self.params['Phase'].set_value(float(phase.value / 100))]. *)
Definition read_phase (register : Z) : float :=
  py_truediv_int register 100.

(** Writing the register from a Phase value and reading it back. *)
Definition write_then_read (phase_value : float) : option float :=
  match set_tuning_phase phase_value with
  | Some r => Some (read_phase r)
  | None => None
  end.

(** The Phase spinbox: range 0.00 .. 9.99, step 0.01.  Its k-th value is the
    binary64 number nearest to k/100. *)
Definition spin_value (k : Z) : float := py_truediv_int k 100.

(** Does the k-th spinbox value survive a write and a read? *)
Definition roundtrip_ok (k : Z) : bool :=
  match write_then_read (spin_value k) with
  | Some v => PrimFloat.eqb v (spin_value k)
  | None => false
  end.

(** The spinbox values, as hundredths, that do not survive. *)
Definition lost_values : list Z :=
  filter (fun k => negb (roundtrip_ok k)) (map Z.of_nat (seq 0 1000)).

(** The register after the read paths have set Phase from the register
    value [r] and Set Tuning has written Phase back. *)
Definition read_then_write (r : Z) : option Z :=
  set_tuning_phase (read_phase r).

(** [n] such read-and-write cycles. *)
Fixpoint cycles (n : nat) (r : Z) : option Z :=
  match n with
  | O => Some r
  | S m =>
      match read_then_write r with
      | Some r' => cycles m r'
      | None => None
      end
  end.

End Slm.

(** * Device layer: the actions of the piece ([slm_code/slm.py])

    [SlmDVI.define_actions] and the four ensurers.  The hardware library
    [_slm_win] is an oracle that answers each call with a status (and, for
    [SLM_Ctrl_ReadWL], the two registers).  What a spinbox stores when
    [set_value] is called is a parameter.  The getters of Display Number,
    Display Info, BMP and Data are left out. *)

Module Piece.

Abbreviation string := String.string.

Inductive error : Type :=
| SlmError (msg : string)
| PyValueError       (* int('') ; int(nan) *)
| OverflowError      (* int(inf) *)
| AttributeError.    (* an attribute read before Toggle Open has set it *)

(** [slm.FLAGS_RATE120] *)
Inductive flags : Type := FLAGS_RATE120.

(** The calls into [_slm_win]. *)
Inductive call : Type :=
| SLM_Ctrl_Open (slm_number : Z)
| SLM_Ctrl_Close (slm_number : Z)
| SLM_Ctrl_WriteVI (slm_number mode : Z)
| SLM_Ctrl_ReadWL (slm_number : Z)
| SLM_Ctrl_WriteWL (slm_number wavelength phase : Z)
| SLM_Ctrl_ReadSU (slm_number : Z)
| SLM_Disp_Open (display_number : Z)
| SLM_Disp_Close (display_number : Z)
| SLM_Disp_GrayScale (display_number : Z) (flag : flags) (contrast : Z).

(** What a call answers: whether the status is [SLM_OK], and the two
    DWORDs that [SLM_Ctrl_ReadWL] fills in. *)
Record reply : Type := {
  status_ok : bool;
  wavelength_out : Z;
  phase_out : Z
}.

(** The parameters and attributes of the piece. *)
Record state : Type := {
  slm_open : bool;                (* params['_slm_open'] *)
  display_open : bool;            (* params['_display_open'] *)
  display_number : option Z;      (* params['Display Number']; None is '' *)
  wavelength : Z;                 (* params['Wavelength'] *)
  phase : float;                  (* params['Phase'] *)
  contrast : Z;                   (* params['Contrast'] *)
  attr_flag : option flags;       (* self._flag *)
  attr_slm_number : option Z;     (* self._slm_number *)
  attr_slm_mode : option Z        (* self._slm_mode *)
}.

(** A freshly constructed piece: checkboxes 0, Display Number '',
    Wavelength 575, Phase 2.00, Contrast 0, no attribute set. *)
Definition initial : state :=
  {| slm_open := false; display_open := false; display_number := None;
     wavelength := 575; phase := 2%float; contrast := 0;
     attr_flag := None; attr_slm_number := None; attr_slm_mode := None |}.

Definition set_slm_open (v : bool) (st : state) : state :=
  {| slm_open := v; display_open := display_open st;
     display_number := display_number st; wavelength := wavelength st;
     phase := phase st; contrast := contrast st;
     attr_flag := attr_flag st; attr_slm_number := attr_slm_number st;
     attr_slm_mode := attr_slm_mode st |}.

Definition set_display_open (v : bool) (st : state) : state :=
  {| slm_open := slm_open st; display_open := v;
     display_number := display_number st; wavelength := wavelength st;
     phase := phase st; contrast := contrast st;
     attr_flag := attr_flag st; attr_slm_number := attr_slm_number st;
     attr_slm_mode := attr_slm_mode st |}.

Definition set_display_number (v : option Z) (st : state) : state :=
  {| slm_open := slm_open st; display_open := display_open st;
     display_number := v; wavelength := wavelength st;
     phase := phase st; contrast := contrast st;
     attr_flag := attr_flag st; attr_slm_number := attr_slm_number st;
     attr_slm_mode := attr_slm_mode st |}.

Definition set_wavelength (v : Z) (st : state) : state :=
  {| slm_open := slm_open st; display_open := display_open st;
     display_number := display_number st; wavelength := v;
     phase := phase st; contrast := contrast st;
     attr_flag := attr_flag st; attr_slm_number := attr_slm_number st;
     attr_slm_mode := attr_slm_mode st |}.

Definition set_phase (v : float) (st : state) : state :=
  {| slm_open := slm_open st; display_open := display_open st;
     display_number := display_number st; wavelength := wavelength st;
     phase := v; contrast := contrast st;
     attr_flag := attr_flag st; attr_slm_number := attr_slm_number st;
     attr_slm_mode := attr_slm_mode st |}.

Definition set_contrast (v : Z) (st : state) : state :=
  {| slm_open := slm_open st; display_open := display_open st;
     display_number := display_number st; wavelength := wavelength st;
     phase := phase st; contrast := v;
     attr_flag := attr_flag st; attr_slm_number := attr_slm_number st;
     attr_slm_mode := attr_slm_mode st |}.

(** [self._flag = ...; self._slm_number = 1; self._slm_mode = 1] *)
Definition set_attrs (st : state) : state :=
  {| slm_open := slm_open st; display_open := display_open st;
     display_number := display_number st; wavelength := wavelength st;
     phase := phase st; contrast := contrast st;
     attr_flag := Some FLAGS_RATE120; attr_slm_number := Some 1%Z;
     attr_slm_mode := Some 1%Z |}.

(** What [set_value] stores in each spinbox, from the value held and the
    value passed (the spinboxes have ranges; the code does not say what
    happens outside them). *)
Record spinboxes : Type := {
  store_wavelength : Z -> Z -> Z;
  store_phase : float -> float -> float;
  store_contrast : Z -> Z -> Z
}.

(** Spinboxes that store what they are given. *)
Definition plain_spinboxes : spinboxes :=
  {| store_wavelength := fun _ v => v;
     store_phase := fun _ v => v;
     store_contrast := fun _ v => v |}.

(** How an action ends. *)
Inductive outcome : Type :=
| Returned
| Raised (e : error).

(** An action as a tree of its effects; a leaf holds the state the action
    leaves behind and how it ended. *)
Inductive prog : Type :=
| Ret (st : state) (o : outcome)
| Hw (c : call) (k : reply -> prog)
| Say (msg : string) (k : prog)
| OpenPopup (name : string) (k : prog).

Definition action : Type := state -> prog.

(** [first] and, if it returns, [next] on the state it left. *)
Fixpoint and_then (first : prog) (next : action) : prog :=
  match first with
  | Ret st Returned => next st
  | Ret st (Raised e) => Ret st (Raised e)
  | Hw c k => Hw c (fun r => and_then (k r) next)
  | Say msg k => Say msg (and_then k next)
  | OpenPopup name k => OpenPopup name (and_then k next)
  end.

Definition raise (msg : string) (st : state) : prog :=
  Ret st (Raised (SlmError msg)).

Definition done (st : state) : prog := Ret st Returned.

Section Actions.

Variable debug : bool.        (* self.puzzle.debug *)
Variable sb : spinboxes.

(** ** The ensurers *)

Definition ensure_slm_open : action := fun st =>
  if negb debug && negb (slm_open st)
  then raise "SLM is not open." st
  else done st.

Definition ensure_slm_ready : action := fun st =>
  if negb debug then
    match attr_slm_number st with
    | None => Ret st (Raised AttributeError)
    | Some n =>
        Hw (SLM_Ctrl_ReadSU n)
           (fun status => if negb (status_ok status)
                          then raise "SLM is not ready." st
                          else done st)
    end
  else done st.

Definition ensure_display_open : action := fun st =>
  if negb debug && negb (display_open st)
  then raise "Display is not open." st
  else done st.

Definition ensure_display_number : action := fun st =>
  if negb debug && match display_number st with None => true | Some _ => false end
  then raise "Set Display Number." st
  else done st.

(** An action decorated with ensurers: they run in the order written, the
    body last. *)
Fixpoint ensured (ensurers : list action) (body : action) : action :=
  match ensurers with
  | [] => body
  | e :: rest => fun st => and_then (e st) (ensured rest body)
  end.

(** ** Toggle Open *)

(** The last steps of closing: [slm.SLM_Ctrl_Close(self._slm_number)]. *)
Definition close_slm : action := fun st =>
  Hw (SLM_Ctrl_Close 1)
     (fun off => if negb (status_ok off)
                 then raise "SLM closed unsuccessful." st
                 else Say "SLM closed successful."
                          (done (set_slm_open false st))).

(** The shared read of the phase registers (Toggle Open, Phase Settings):
    [ReadWL], then [Wavelength.set_value(wavelength.value)] and
    [Phase.set_value(float(phase.value / 100))]. *)
Definition read_registers (n : Z) (next : action) : action := fun st =>
  Hw (SLM_Ctrl_ReadWL n)
     (fun read =>
        if negb (status_ok read)
        then raise "Phase read unsuccessful." st
        else
          let st1 := set_wavelength
                       (store_wavelength sb (wavelength st)
                                         (wavelength_out read)) st in
          let st2 := set_phase
                       (store_phase sb (phase st1)
                                    (Slm.read_phase (phase_out read))) st1 in
          Say "Phase read successful." (next st2)).

Definition toggle_open : action := fun st =>
  if negb debug then
    let st := set_attrs st in
    let current_state := slm_open st in
    if negb current_state then
      Hw (SLM_Ctrl_Open 1)
         (fun on =>
            if negb (status_ok on) then raise "Could not open SLM." st
            else
              Hw (SLM_Ctrl_WriteVI 1 1)
                 (fun dvi =>
                    if negb (status_ok dvi)
                    then raise "DVI mode unsuccessful" st
                    else
                      Say "DVI mode successful."
                          (read_registers 1
                             (fun st2 =>
                                Say "SLM open successful."
                                    (done (set_slm_open true st2)))
                             st)))
    else
      if display_open st then
        match display_number st with
        | None => raise "Set Display Number" st
        | Some d =>
            Hw (SLM_Disp_Close d)
               (fun off =>
                  if negb (status_ok off)
                  then raise "Display closed unsuccessful." st
                  else Say "Display closed successful."
                           (close_slm (set_display_open false st)))
        end
      else close_slm st
  else done st.

(** ** The guarded actions *)

Definition settings : action :=
  ensured [ensure_slm_open; ensure_slm_ready]
          (fun st => OpenPopup "SlmSettingsPopup" (done st)).

Definition display_settings : action :=
  ensured [ensure_slm_open; ensure_slm_ready]
          (fun st => OpenPopup "SlmDisplayPopup" (done st)).

Definition toggle_display : action :=
  ensured [ensure_slm_open; ensure_slm_ready; ensure_display_number]
    (fun st =>
       if negb debug then
         let current_state := display_open st in
         match display_number st with
         | None => Ret st (Raised PyValueError)
         | Some d =>
             if negb current_state then
               Hw (SLM_Disp_Open d)
                  (fun on =>
                     if negb (status_ok on)
                     then raise "Display open unsuccessful." st
                     else Say "Display open successful."
                              (done (set_display_open true st)))
             else
               Hw (SLM_Disp_Close d)
                  (fun off =>
                     if negb (status_ok off)
                     then raise "Display closed unsuccessful." st
                     else Say "Display closed successful."
                              (done (set_display_open false st)))
         end
       else done st).

Definition phase_settings : action :=
  ensured [ensure_slm_open; ensure_slm_ready; ensure_display_open]
    (fun st =>
       and_then
         (if negb debug then
            match attr_slm_number st with
            | None => Ret st (Raised AttributeError)
            | Some n => read_registers n done st
            end
          else done st)
         (fun st' => OpenPopup "SlmPhasePopup" (done st'))).

(** [int(x)] with the exceptions Python raises. *)
Definition int_of_float (x : float) (st : state) (next : Z -> prog) : prog :=
  match Slm.py_int x with
  | Some z => next z
  | None => Ret st (Raised (if PrimFloat.is_nan x then PyValueError
                            else OverflowError))
  end.

Definition set_tuning : action :=
  ensured [ensure_slm_open; ensure_slm_ready; ensure_display_open]
    (fun st =>
       if negb debug then
         let wl := wavelength st in
         int_of_float (PrimFloat.mul (phase st) (float_of_Z 100)) st
           (fun ph =>
              match attr_slm_number st with
              | None => Ret st (Raised AttributeError)
              | Some n =>
                  Hw (SLM_Ctrl_WriteWL n wl ph)
                     (fun phase_set =>
                        if negb (status_ok phase_set)
                        then raise "Phase write unsuccessful." st
                        else Say "Phase write successful." (done st))
              end)
       else done st).

(** The body shared by Write Contrast and Incr Contrast, up to its two
    messages. *)
Definition gray_scale (failed succeeded : string) : action := fun st =>
  if negb debug then
    match display_number st with
    | None => Ret st (Raised PyValueError)
    | Some d =>
        match attr_flag st with
        | None => Ret st (Raised AttributeError)
        | Some fl =>
            Hw (SLM_Disp_GrayScale d fl (contrast st))
               (fun display =>
                  if negb (status_ok display) then raise failed st
                  else Say succeeded (done st))
        end
    end
  else done st.

Definition write_contrast : action :=
  ensured [ensure_slm_open; ensure_slm_ready; ensure_display_open]
          (gray_scale "Contrast write unsuccessful."
                      "Contrast write successful.").

Definition incr_contrast : action :=
  ensured [ensure_slm_open; ensure_slm_ready; ensure_display_open]
    (fun st =>
       let st1 := set_contrast
                    (store_contrast sb (contrast st) (contrast st + 1)) st in
       gray_scale "Contrast increment unsuccessful."
                  "Contrast increment successful." st1).

(** Write BMP, Incr BMP, Write Data and Incr Data: ensurers around an empty
    body. *)
Definition empty_action : action :=
  ensured [ensure_slm_open; ensure_slm_ready; ensure_display_open] done.

(** The actions by name. *)
Inductive name : Type :=
| ToggleOpen | Settings | DisplaySettings | ToggleDisplay | PhaseSettings
| SetTuning | WriteContrast | IncrContrast
| WriteBMP | IncrBMP | WriteData | IncrData.

Definition perform (a : name) : action :=
  match a with
  | ToggleOpen => toggle_open
  | Settings => settings
  | DisplaySettings => display_settings
  | ToggleDisplay => toggle_display
  | PhaseSettings => phase_settings
  | SetTuning => set_tuning
  | WriteContrast => write_contrast
  | IncrContrast => incr_contrast
  | WriteBMP | IncrBMP | WriteData | IncrData => empty_action
  end.

End Actions.

(** ** Running an action against the hardware *)

Inductive event : Type :=
| Called (c : call) (r : reply)
| Said (msg : string)
| Popped (name : string).

(** The hardware answers a call knowing the calls made so far. *)
Definition hardware : Type := list call -> call -> reply.

Fixpoint run (hw : hardware) (past : list call) (p : prog)
  : list event * (state * outcome) :=
  match p with
  | Ret st o => ([], (st, o))
  | Hw c k =>
      let r := hw past c in
      let '(tr, res) := run hw (past ++ [c]) (k r) in
      (Called c r :: tr, res)
  | Say msg k =>
      let '(tr, res) := run hw past k in (Said msg :: tr, res)
  | OpenPopup name k =>
      let '(tr, res) := run hw past k in (Popped name :: tr, res)
  end.

(** The hardware calls of a trace, in order. *)
Fixpoint calls (tr : list event) : list call :=
  match tr with
  | [] => []
  | Called c _ :: t => c :: calls t
  | _ :: t => calls t
  end.

(** What the user and the program can do to the piece: trigger an action,
    or edit one of the visible parameters. *)
Inductive step : Type :=
| Do (a : name)
| EditDisplayNumber (v : option Z)
| EditWavelength (v : Z)
| EditPhase (v : float)
| EditContrast (v : Z).

(** One step; the hardware sees the calls of the earlier steps. *)
Definition do_step (debug : bool) (sb : spinboxes) (hw : hardware)
           (past : list call) (st : state) (s : step)
  : list event * (state * outcome) :=
  match s with
  | Do a => run hw past (perform debug sb a st)
  | EditDisplayNumber v => ([], (set_display_number v st, Returned))
  | EditWavelength v =>
      ([], (set_wavelength (store_wavelength sb (wavelength st) v) st, Returned))
  | EditPhase v =>
      ([], (set_phase (store_phase sb (phase st) v) st, Returned))
  | EditContrast v =>
      ([], (set_contrast (store_contrast sb (contrast st) v) st, Returned))
  end.

(** A session: steps one after another, each on the state the previous one
    left, whether it returned or raised.  The result is the final state and
    the outcomes of the steps. *)
Fixpoint session (debug : bool) (sb : spinboxes) (hw : hardware)
         (past : list call) (st : state) (steps : list step)
  : state * list outcome :=
  match steps with
  | [] => (st, [])
  | s :: rest =>
      let '(tr, (st', o)) := do_step debug sb hw past st s in
      let '(final, os) := session debug sb hw (past ++ calls tr) st' rest in
      (final, o :: os)
  end.

(** The attributes are set whenever the SLM is flagged open, and the
    display is flagged open only while the SLM is. *)
Definition consistent (st : state) : Prop :=
  (slm_open st = true ->
   attr_slm_number st = Some 1%Z /\ attr_flag st = Some FLAGS_RATE120) /\
  (display_open st = true -> slm_open st = true).

(** Hardware whose every call succeeds, with fixed register contents. *)
Definition always_ok (wl ph : Z) : hardware :=
  fun _ _ => {| status_ok := true; wavelength_out := wl; phase_out := ph |}.

(** Hardware whose every call fails. *)
Definition never_ok : hardware :=
  fun _ _ => {| status_ok := false; wavelength_out := 0; phase_out := 0 |}.

End Piece.

(** * The model library *)

(** A model accepts exactly the parameter vectors of its arity. *)
Lemma call_model_arity {F : Type} `{NumpyElementary F}
      (m : model) (x : F) (p : list F) :
  (exists v, call_model m x p = Ok v) <-> length p = Spec.arity m.
Proof.
  split.
  - intros [v Hv]. destruct m; simpl in *;
      repeat (destruct p as [|? p]; try discriminate); reflexivity.
  - intros Hlen. destruct m; simpl in *;
      repeat (destruct p as [|? p]; try discriminate);
      eexists; reflexivity.
Qed.

(** C1: on real arguments the three model functions of the script compute
    the reference formulas linear, first_order and second_order, and a model
    accepts a parameter vector exactly when its length is 4, 5 and 6
    respectively. *)
Theorem model_library_matches_spec :
  (forall x x0 a b c : R,
      call_model linear_cos_square_f (Fin x) [Fin x0; Fin a; Fin b; Fin c]
      = Ok (Fin (Spec.linear x x0 a b c))) /\
  (forall x x0 a b c d : R,
      call_model nonlinear1_cos_square_f (Fin x)
                 [Fin x0; Fin a; Fin b; Fin c; Fin d]
      = Ok (Fin (Spec.first_order x x0 a b c d))) /\
  (forall x x0 a b c d e : R,
      call_model nonlinear2_cos_square_f (Fin x)
                 [Fin x0; Fin a; Fin b; Fin c; Fin d; Fin e]
      = Ok (Fin (Spec.second_order x x0 a b c d e))) /\
  (forall (m : model) (x : xreal) (p : list xreal),
      (exists v, call_model m x p = Ok v) <->
      length p = match m with
                 | linear_cos_square_f => 4
                 | nonlinear1_cos_square_f => 5
                 | nonlinear2_cos_square_f => 6
                 end)%nat.
Proof.
  split; [|split; [|split]].
  - intros. reflexivity.
  - intros. reflexivity.
  - intros. reflexivity.
  - intros m x p. rewrite call_model_arity. destruct m; reflexivity.
Qed.

(** * numpy reductions on finite reals *)

Lemma Rleb_true (a b : R) : (a <= b)%R -> Rleb a b = true.
Proof. intros Hle. unfold Rleb. destruct (Rle_dec a b); [reflexivity | contradiction]. Qed.

Lemma Rleb_false (a b : R) : (b < a)%R -> Rleb a b = false.
Proof. intros Hlt. unfold Rleb. destruct (Rle_dec a b); [lra | reflexivity]. Qed.

Lemma Rltb_true (a b : R) : (a < b)%R -> Rltb a b = true.
Proof. intros Hlt. unfold Rltb. destruct (Rlt_dec a b); [reflexivity | contradiction]. Qed.

Lemma Rltb_false (a b : R) : (b <= a)%R -> Rltb a b = false.
Proof. intros Hle. unfold Rltb. destruct (Rlt_dec a b); [lra | reflexivity]. Qed.

Lemma Reqb_true (a b : R) : a = b -> Reqb a b = true.
Proof. intros Heq. unfold Reqb. destruct (Req_dec_T a b); [reflexivity | contradiction]. Qed.

Lemma Reqb_false (a b : R) : a <> b -> Reqb a b = false.
Proof. intros Hne. unfold Reqb. destruct (Req_dec_T a b); [contradiction | reflexivity]. Qed.

Lemma nth_error_snoc {A : Type} (pre : list A) (x z : A) (j : nat) :
  nth_error (pre ++ [x]) j = Some z ->
  (j < length pre)%nat /\ nth_error pre j = Some z \/
  j = length pre /\ z = x.
Proof.
  intros Hj. destruct (Nat.lt_ge_cases j (length pre)) as [Hlt | Hge].
  - left. split; [exact Hlt|]. rewrite nth_error_app1 in Hj; assumption.
  - right. rewrite nth_error_app2 in Hj by exact Hge.
    destruct (j - length pre)%nat as [|n] eqn:Hd; simpl in Hj.
    + split; [lia | congruence].
    + destruct n; discriminate.
Qed.

Lemma argmax_scan_reals (l pre : list R) (b : R) (bi : nat) :
  Spec.is_first_argmax pre bi b ->
  exists y, Spec.is_first_argmax (pre ++ l)
              (argmax_scan (Fin b) bi (length pre) (map Fin l)) y.
Proof.
  revert pre b bi. induction l as [|x t IH]; intros pre b bi Hpre.
  - simpl. rewrite app_nil_r. exists b. exact Hpre.
  - destruct Hpre as (Hnth & Hall & Hbefore).
    assert (Hbi : (bi < length pre)%nat)
      by (apply nth_error_Some; rewrite Hnth; discriminate).
    replace (pre ++ x :: t) with ((pre ++ [x]) ++ t)
      by (rewrite <- app_assoc; reflexivity).
    simpl. unfold Rleb. destruct (Rle_dec x b) as [Hle | Hgt]; simpl.
    + replace (S (length pre)) with (length (pre ++ [x]))
        by (rewrite length_app; simpl; lia).
      apply IH. split; [|split].
      * rewrite nth_error_app1; assumption.
      * intros j z Hj. apply nth_error_snoc in Hj as [[_ Hj] | [_ ->]];
          [eapply Hall; eassumption | exact Hle].
      * intros j z Hlt Hj. apply nth_error_snoc in Hj as [[_ Hj] | [-> _]];
          [eapply Hbefore; eassumption | lia].
    + replace (S (length pre)) with (length (pre ++ [x]))
        by (rewrite length_app; simpl; lia).
      apply IH. split; [|split].
      * rewrite nth_error_app2 by lia. rewrite Nat.sub_diag. reflexivity.
      * intros j z Hj. apply nth_error_snoc in Hj as [[_ Hj] | [_ ->]];
          [apply Hall in Hj; lra | lra].
      * intros j z Hlt Hj. apply nth_error_snoc in Hj as [[_ Hj] | [-> _]];
          [apply Hall in Hj; lra | lia].
Qed.

Lemma argmin_scan_reals (l pre : list R) (b : R) (bi : nat) :
  Spec.is_first_argmin pre bi b ->
  exists y, Spec.is_first_argmin (pre ++ l)
              (argmin_scan (Fin b) bi (length pre) (map Fin l)) y.
Proof.
  revert pre b bi. induction l as [|x t IH]; intros pre b bi Hpre.
  - simpl. rewrite app_nil_r. exists b. exact Hpre.
  - destruct Hpre as (Hnth & Hall & Hbefore).
    assert (Hbi : (bi < length pre)%nat)
      by (apply nth_error_Some; rewrite Hnth; discriminate).
    replace (pre ++ x :: t) with ((pre ++ [x]) ++ t)
      by (rewrite <- app_assoc; reflexivity).
    simpl. unfold Rleb. destruct (Rle_dec b x) as [Hle | Hgt]; simpl.
    + replace (S (length pre)) with (length (pre ++ [x]))
        by (rewrite length_app; simpl; lia).
      apply IH. split; [|split].
      * rewrite nth_error_app1; assumption.
      * intros j z Hj. apply nth_error_snoc in Hj as [[_ Hj] | [_ ->]];
          [eapply Hall; eassumption | exact Hle].
      * intros j z Hlt Hj. apply nth_error_snoc in Hj as [[_ Hj] | [-> _]];
          [eapply Hbefore; eassumption | lia].
    + replace (S (length pre)) with (length (pre ++ [x]))
        by (rewrite length_app; simpl; lia).
      apply IH. split; [|split].
      * rewrite nth_error_app2 by lia. rewrite Nat.sub_diag. reflexivity.
      * intros j z Hj. apply nth_error_snoc in Hj as [[_ Hj] | [_ ->]];
          [apply Hall in Hj; lra | lra].
      * intros j z Hlt Hj. apply nth_error_snoc in Hj as [[_ Hj] | [-> _]];
          [apply Hall in Hj; lra | lia].
Qed.

Lemma first_argmax_singleton (y : R) : Spec.is_first_argmax [y] 0 y.
Proof.
  split; [reflexivity | split].
  - intros [|[|j]] z Hj; simpl in Hj; try discriminate.
    injection Hj as <-. lra.
  - intros j z Hlt. lia.
Qed.

Lemma first_argmin_singleton (y : R) : Spec.is_first_argmin [y] 0 y.
Proof.
  split; [reflexivity | split].
  - intros [|[|j]] z Hj; simpl in Hj; try discriminate.
    injection Hj as <-. lra.
  - intros j z Hlt. lia.
Qed.

Lemma np_argmax_reals (ys : list R) :
  ys <> [] ->
  exists i y, np_argmax (map Fin ys) = Ok i /\ Spec.is_first_argmax ys i y.
Proof.
  destruct ys as [|y t]; [congruence | intros _].
  destruct (argmax_scan_reals t [y] y 0 (first_argmax_singleton y)) as [m Hm].
  eexists; exists m. split; [reflexivity | exact Hm].
Qed.

Lemma np_argmin_reals (ys : list R) :
  ys <> [] ->
  exists i y, np_argmin (map Fin ys) = Ok i /\ Spec.is_first_argmin ys i y.
Proof.
  destruct ys as [|y t]; [congruence | intros _].
  destruct (argmin_scan_reals t [y] y 0 (first_argmin_singleton y)) as [m Hm].
  eexists; exists m. split; [reflexivity | exact Hm].
Qed.

Lemma fold_maximum_reals (t : list R) (x : R) :
  exists m, fold_left np_maximum (map Fin t) (Fin x) = Fin m /\
            Spec.is_max (x :: t) m.
Proof.
  revert x. induction t as [|a t IH]; intros x.
  - exists x. split; [reflexivity|]. split; [left; reflexivity|].
    intros y [<- | []]. lra.
  - simpl. unfold np_maximum at 2. simpl. unfold Rleb.
    destruct (Rle_dec a x) as [Hle | Hgt].
    + destruct (IH x) as (m & Hfold & Hin & Hub). exists m.
      split; [exact Hfold|]. split.
      * destruct Hin as [<- | Hin]; [left; reflexivity | right; right; exact Hin].
      * intros y [<- | [<- | Hy]].
        -- apply Hub. left; reflexivity.
        -- apply Rle_trans with x; [exact Hle | apply Hub; left; reflexivity].
        -- apply Hub. right; exact Hy.
    + destruct (IH a) as (m & Hfold & Hin & Hub). exists m.
      split; [exact Hfold|]. split.
      * right. exact Hin.
      * intros y [<- | Hy]; [|apply Hub; exact Hy].
        apply Rle_trans with a; [lra | apply Hub; left; reflexivity].
Qed.

Lemma fold_minimum_reals (t : list R) (x : R) :
  exists m, fold_left np_minimum (map Fin t) (Fin x) = Fin m /\
            Spec.is_min (x :: t) m.
Proof.
  revert x. induction t as [|a t IH]; intros x.
  - exists x. split; [reflexivity|]. split; [left; reflexivity|].
    intros y [<- | []]. lra.
  - simpl. unfold np_minimum at 2. simpl. unfold Rleb.
    destruct (Rle_dec x a) as [Hle | Hgt].
    + destruct (IH x) as (m & Hfold & Hin & Hlb). exists m.
      split; [exact Hfold|]. split.
      * destruct Hin as [<- | Hin]; [left; reflexivity | right; right; exact Hin].
      * intros y [<- | [<- | Hy]].
        -- apply Hlb. left; reflexivity.
        -- apply Rle_trans with x; [apply Hlb; left; reflexivity | exact Hle].
        -- apply Hlb. right; exact Hy.
    + destruct (IH a) as (m & Hfold & Hin & Hlb). exists m.
      split; [exact Hfold|]. split.
      * right. exact Hin.
      * intros y [<- | Hy]; [|apply Hlb; exact Hy].
        apply Rle_trans with a; [apply Hlb; left; reflexivity | lra].
Qed.

(** * Stage 0 on a dataset of finite reals *)

Lemma Reqb_1023 : Reqb 1023 0 = false.
Proof. apply Reqb_false. lra. Qed.

Lemma index_map_Fin (gs : list R) (i : nat) (g : R) :
  nth_error gs i = Some g -> index (map Fin gs) i = Ok (Fin g).
Proof. intros Hg. unfold index. rewrite nth_error_map, Hg. reflexivity. Qed.

Lemma stage0_reals (gs ys : list R) :
  ys <> [] -> length gs = length ys ->
  exists ipk imn g_peak g_min y_pk y_mn y_max y_min,
    Spec.is_first_argmax (firstn 30 ys) ipk y_pk /\
    nth_error gs ipk = Some g_peak /\
    Spec.is_first_argmin ys imn y_mn /\
    nth_error gs imn = Some g_min /\
    Spec.is_max ys y_max /\
    Spec.is_min ys y_min /\
    np_argmax (firstn 30 (map Fin ys)) = Ok ipk /\
    np_argmin (map Fin ys) = Ok imn /\
    stage0 (map Fin gs) (map Fin ys)
    = Ok (Spec.stage0_box g_peak g_min y_max y_min).
Proof.
  intros Hne Hlen.
  assert (Hne30 : firstn 30 ys <> [])
    by (destruct ys; [congruence | discriminate]).
  destruct (np_argmax_reals _ Hne30) as (ipk & y_pk & Hamax & Hpk).
  destruct (np_argmin_reals _ Hne) as (imn & y_mn & Hamin & Hmn).
  assert (Hipk : (ipk < length gs)%nat).
  { destruct Hpk as (Hnth & _).
    assert (ipk < length (firstn 30 ys))%nat
      by (apply nth_error_Some; rewrite Hnth; discriminate).
    rewrite length_firstn in *. lia. }
  assert (Himn : (imn < length gs)%nat).
  { destruct Hmn as (Hnth & _). rewrite Hlen.
    apply nth_error_Some. rewrite Hnth. discriminate. }
  destruct (nth_error gs ipk) as [g_peak|] eqn:Hgp;
    [|apply nth_error_None in Hgp; lia].
  destruct (nth_error gs imn) as [g_min|] eqn:Hgm;
    [|apply nth_error_None in Hgm; lia].
  destruct ys as [|y0 t]; [congruence|].
  destruct (fold_maximum_reals t y0) as (y_max & Hfmax & Hmax).
  destruct (fold_minimum_reals t y0) as (y_min & Hfmin & Hmin).
  exists ipk, imn, g_peak, g_min, y_pk, y_mn, y_max, y_min.
  rewrite <- firstn_map in Hamax.
  repeat (split; [assumption|]).
  unfold stage0. rewrite Hamax. cbn [bind].
  rewrite (index_map_Fin _ _ _ Hgp). cbn [bind].
  rewrite Hamin. cbn [bind].
  rewrite (index_map_Fin _ _ _ Hgm). cbn [bind].
  cbn [np_max np_min map bind]. rewrite Hfmax, Hfmin.
  cbn. rewrite Reqb_1023. reflexivity.
Qed.

Lemma freq_guess_distinct (g_peak g_min : R) :
  g_peak <> g_min ->
  Spec.freq_guess g_peak g_min = Fin (PI / (2 * Rabs (g_peak - g_min))).
Proof.
  intros Hne. unfold Spec.freq_guess, xdiv. rewrite Reqb_false; [reflexivity|].
  assert (0 < Rabs (g_peak - g_min))%R by (apply Rabs_pos_lt; lra). lra.
Qed.

Lemma freq_guess_coincide (g : R) : Spec.freq_guess g g = PInf.
Proof.
  unfold Spec.freq_guess, xdiv.
  replace (2 * Rabs (g - g))%R with 0%R
    by (rewrite Rminus_diag, Rabs_R0; ring).
  rewrite Reqb_true by reflexivity. unfold signed_inf.
  rewrite Rltb_true by apply PI_RGT_0. reflexivity.
Qed.

(** C2: for every non-empty dataset of finite (greyscale, intensity) pairs,
    stage 0 returns the guess [g_peak, max, pi / (2 |g_peak - g_min|), min]
    with the bounds [g_peak - 50, g_peak + 50],
    [max - 10 min, max + 10 min], [pi / 1023, 2 freq - pi / 1023] and
    [0, 10 min], where g_peak is the greyscale at the first maximum of the
    first 30 intensities, g_min the greyscale at the first minimum of all
    intensities, and max and min the largest and smallest intensity. *)
Theorem stage0_guess_and_bounds (gs ys : list R) :
  ys <> [] -> length gs = length ys ->
  exists (ipk imn : nat) (g_peak g_min y_pk y_mn y_max y_min : R),
    Spec.is_first_argmax (firstn 30 ys) ipk y_pk /\
    nth_error gs ipk = Some g_peak /\
    Spec.is_first_argmin ys imn y_mn /\
    nth_error gs imn = Some g_min /\
    Spec.is_max ys y_max /\
    Spec.is_min ys y_min /\
    let freq := xdiv (Fin PI) (Fin (2 * Rabs (g_peak - g_min))) in
    stage0 (map Fin gs) (map Fin ys)
    = Ok {| guess := [Fin g_peak; Fin y_max; freq; Fin y_min];
            lower := [Fin (g_peak - 50); Fin (y_max - 10 * y_min);
                      Fin (PI / 1023); Fin 0];
            upper := [Fin (g_peak + 50); Fin (y_max + 10 * y_min);
                      xsub (xmul (Fin 2) freq) (Fin (PI / 1023));
                      Fin (10 * y_min)] |} /\
    (g_peak <> g_min -> freq = Fin (PI / (2 * Rabs (g_peak - g_min)))).
Proof.
  intros Hne Hlen.
  destruct (stage0_reals gs ys Hne Hlen)
    as (ipk & imn & g_peak & g_min & y_pk & y_mn & y_max & y_min &
        Hpk & Hgp & Hmn & Hgm & Hmax & Hmin & _ & _ & Hst).
  exists ipk, imn, g_peak, g_min, y_pk, y_mn, y_max, y_min.
  repeat (split; [assumption|]).
  intros Hd. exact (freq_guess_distinct _ _ Hd).
Qed.

Lemma stage0_guess_and_bounds_witness :
  exists (ipk imn : nat) (g_peak g_min y_pk y_mn y_max y_min : R),
    Spec.is_first_argmax (firstn 30 [5; 1]%R) ipk y_pk /\
    nth_error [0; 1]%R ipk = Some g_peak /\
    Spec.is_first_argmin [5; 1]%R imn y_mn /\
    nth_error [0; 1]%R imn = Some g_min /\
    Spec.is_max [5; 1]%R y_max /\
    Spec.is_min [5; 1]%R y_min /\
    let freq := xdiv (Fin PI) (Fin (2 * Rabs (g_peak - g_min))) in
    stage0 (map Fin [0; 1]%R) (map Fin [5; 1]%R)
    = Ok {| guess := [Fin g_peak; Fin y_max; freq; Fin y_min];
            lower := [Fin (g_peak - 50); Fin (y_max - 10 * y_min);
                      Fin (PI / 1023); Fin 0];
            upper := [Fin (g_peak + 50); Fin (y_max + 10 * y_min);
                      xsub (xmul (Fin 2) freq) (Fin (PI / 1023));
                      Fin (10 * y_min)] |} /\
    (g_peak <> g_min -> freq = Fin (PI / (2 * Rabs (g_peak - g_min)))).
Proof.
  apply (stage0_guess_and_bounds [0; 1]%R [5; 1]%R);
    [discriminate | reflexivity].
Defined.

(** * Stage k > 0 *)

(** C4: from a fitted vector p, the next stage's guess is p extended with
    0.0; its lower bounds are p - EPS elementwise followed by -inf, its
    upper bounds p + EPS elementwise followed by +inf; EPS is 1e-12. *)
Theorem next_stage_guess_and_bounds :
  (forall (F : Type) (NF : NumpyFloat F) (p : list F),
      let gb := next_stage p in
      guess gb = p ++ [np_of_Z 0] /\
      length (lower gb) = S (length p) /\
      length (upper gb) = S (length p) /\
      (forall i v, nth_error p i = Some v ->
                   nth_error (guess gb) i = Some v /\
                   nth_error (lower gb) i = Some (np_sub v EPS) /\
                   nth_error (upper gb) i = Some (np_add v EPS)) /\
      nth_error (guess gb) (length p) = Some (np_of_Z 0) /\
      nth_error (lower gb) (length p) = Some (np_neg np_inf) /\
      nth_error (upper gb) (length p) = Some np_inf) /\
  (EPS : xreal) = Fin 1e-12 /\
  (np_neg np_inf : xreal) = NInf /\
  (EPS : float) = 1e-12%float /\
  (np_neg np_inf : float) = neg_infinity /\
  (np_of_Z 0 : float) = 0%float.
Proof.
  split.
  - intros F NF p gb. subst gb. unfold next_stage; simpl.
    rewrite !length_app, !length_map. simpl.
    split; [reflexivity|]. split; [lia|]. split; [lia|].
    split; [|split; [|split]].
    + intros i v Hv.
      assert (Hi : (i < length p)%nat)
        by (apply nth_error_Some; rewrite Hv; discriminate).
      rewrite !nth_error_app1 by (rewrite ?length_map; exact Hi).
      rewrite !nth_error_map, Hv. auto.
    + rewrite nth_error_app2, Nat.sub_diag by lia. reflexivity.
    + rewrite nth_error_app2 by (rewrite length_map; lia).
      rewrite length_map, Nat.sub_diag. reflexivity.
    + rewrite nth_error_app2 by (rewrite length_map; lia).
      rewrite length_map, Nat.sub_diag. reflexivity.
  - split; [|split; [|split; [|split]]]; try reflexivity.
    unfold EPS, decimal. cbn. rewrite Reqb_false by lra. reflexivity.
Qed.

(** * Nonlinearity and error bars *)

Lemma diag_from_nth {F : Type} (rows : list (list F)) (i k : nat) :
  (forall j, (j <= k)%nat ->
             exists r v, nth_error rows j = Some r /\
                         nth_error r (i + j) = Some v) ->
  nth_error (diag_from i rows) k
  = match nth_error rows k with
    | Some r => nth_error r (i + k)
    | None => None
    end.
Proof.
  revert i k. induction rows as [|r t IH]; intros i k Hrows.
  - destruct (Hrows 0%nat (Nat.le_0_l k)) as (r & v & Hr & _). discriminate.
  - destruct (Hrows 0%nat (Nat.le_0_l k)) as (r0 & v & Hr & Hv).
    simpl in Hr. injection Hr as <-. rewrite Nat.add_0_r in Hv.
    simpl. rewrite Hv.
    destruct k as [|k]; simpl.
    + rewrite Nat.add_0_r. symmetry. exact Hv.
    + rewrite IH.
      * replace (S i + k)%nat with (i + S k)%nat by lia. reflexivity.
      * intros j Hj. destruct (Hrows (S j)) as (r' & v' & Hr' & Hv'); [lia|].
        exists r', v'. split; [exact Hr'|].
        replace (S i + j)%nat with (i + S j)%nat by lia. exact Hv'.
Qed.

Lemma np_diag_variance {F : Type} (cov : list (list F)) (n k : nat) :
  (forall j, (j < n)%nat -> Spec.variance cov j <> None) ->
  (k < n)%nat ->
  nth_error (np_diag cov) k = Spec.variance cov k.
Proof.
  intros Hsq Hk. unfold np_diag, Spec.variance. rewrite diag_from_nth.
  - reflexivity.
  - intros j Hj. assert (Hv : Spec.variance cov j <> None) by (apply Hsq; lia).
    unfold Spec.variance in Hv.
    destruct (nth_error cov j) as [r|]; [|congruence].
    destruct (nth_error r j) as [v|] eqn:Hrj; [|congruence].
    exists r, v. split; [reflexivity | exact Hrj].
Qed.

(** C5: for the parameters p and covariance matrix cov of a final
    (second-order) fit, the aggregation computes
    nonlinearity1 = p[4] / p[2], nonlinearity2 = p[5] / p[2] and the error
    bars sqrt(Var p[2] + Var p[4]) and sqrt(Var p[2] + Var p[5]), the
    variances being the diagonal entries of cov. *)
Theorem aggregate_nonlinearity {F : Type} `{NumpyFloat F}
        (p : list F) (cov : list (list F)) (p2 p4 p5 v2 v4 v5 : F) :
  nth_error p 2 = Some p2 ->
  nth_error p 4 = Some p4 ->
  nth_error p 5 = Some p5 ->
  (forall k, (k < 6)%nat -> Spec.variance cov k <> None) ->
  Spec.variance cov 2 = Some v2 ->
  Spec.variance cov 4 = Some v4 ->
  Spec.variance cov 5 = Some v5 ->
  aggregate p cov
  = Ok {| nonlinearity1 := np_div p4 p2;
          nonlinearity2 := np_div p5 p2;
          err := (np_sqrt (np_add v2 v4), np_sqrt (np_add v2 v5)) |}.
Proof.
  intros Hp2 Hp4 Hp5 Hsq Hv2 Hv4 Hv5.
  unfold aggregate, index.
  rewrite Hp4, Hp2, Hp5. cbn [bind].
  rewrite !(np_diag_variance cov 6) by (exact Hsq || lia).
  rewrite Hv2, Hv4, Hv5. reflexivity.
Qed.

Lemma aggregate_nonlinearity_witness :
  let var := 1e-8%float in
  let z := 0%float in
  aggregate [300; 50; 0.01; 5; 0.0002; 0.00001]%float
            [[var; z; z; z; z; z]; [z; var; z; z; z; z]; [z; z; var; z; z; z];
             [z; z; z; var; z; z]; [z; z; z; z; var; z]; [z; z; z; z; z; var]]
  = Ok {| nonlinearity1 := np_div 0.0002 0.01;
          nonlinearity2 := np_div 0.00001 0.01;
          err := (np_sqrt (np_add var var), np_sqrt (np_add var var)) |}%float.
Proof.
  intros var z.
  apply (aggregate_nonlinearity (F := float)); try reflexivity.
  intros k Hk. do 6 (destruct k as [|k]; [discriminate|]). lia.
Defined.

(** * The stage-0 bound box *)

Lemma first_argmax_unique (ys : list R) (i i' : nat) (y y' : R) :
  Spec.is_first_argmax ys i y -> Spec.is_first_argmax ys i' y' ->
  i = i' /\ y = y'.
Proof.
  intros (Hi & Hall & Hbefore) (Hi' & Hall' & Hbefore').
  destruct (Nat.lt_trichotomy i i') as [Hlt | [-> | Hlt]].
  - specialize (Hbefore' _ _ Hlt Hi). specialize (Hall _ _ Hi'). lra.
  - split; [reflexivity | congruence].
  - specialize (Hbefore _ _ Hlt Hi'). specialize (Hall' _ _ Hi). lra.
Qed.

Lemma first_argmin_unique (ys : list R) (i i' : nat) (y y' : R) :
  Spec.is_first_argmin ys i y -> Spec.is_first_argmin ys i' y' ->
  i = i' /\ y = y'.
Proof.
  intros (Hi & Hall & Hbefore) (Hi' & Hall' & Hbefore').
  destruct (Nat.lt_trichotomy i i') as [Hlt | [-> | Hlt]].
  - specialize (Hbefore' _ _ Hlt Hi). specialize (Hall _ _ Hi'). lra.
  - split; [reflexivity | congruence].
  - specialize (Hbefore _ _ Hlt Hi'). specialize (Hall' _ _ Hi). lra.
Qed.

Lemma max_unique (ys : list R) (m m' : R) :
  Spec.is_max ys m -> Spec.is_max ys m' -> m = m'.
Proof.
  intros (Hin & Hub) (Hin' & Hub').
  apply Rle_antisym; [apply Hub'; exact Hin | apply Hub; exact Hin'].
Qed.

Lemma min_unique (ys : list R) (m m' : R) :
  Spec.is_min ys m -> Spec.is_min ys m' -> m = m'.
Proof.
  intros (Hin & Hlb) (Hin' & Hlb').
  apply Rle_antisym; [apply Hlb; exact Hin' | apply Hlb'; exact Hin].
Qed.

(** Stage 0 evaluated from the extrema of the dataset. *)
Lemma stage0_reals_at (gs ys : list R) (ipk imn : nat)
      (g_peak g_min y_pk y_mn y_max y_min : R) :
  length gs = length ys ->
  Spec.is_first_argmax (firstn 30 ys) ipk y_pk ->
  nth_error gs ipk = Some g_peak ->
  Spec.is_first_argmin ys imn y_mn ->
  nth_error gs imn = Some g_min ->
  Spec.is_max ys y_max ->
  Spec.is_min ys y_min ->
  stage0 (map Fin gs) (map Fin ys)
  = Ok (Spec.stage0_box g_peak g_min y_max y_min).
Proof.
  intros Hlen Hpk Hgp Hmn Hgm Hmax Hmin.
  assert (Hne : ys <> []) by (destruct Hmax as [Hin _]; destruct ys; [destruct Hin | discriminate]).
  destruct (stage0_reals gs ys Hne Hlen)
    as (ipk' & imn' & g_peak' & g_min' & y_pk' & y_mn' & y_max' & y_min' &
        Hpk' & Hgp' & Hmn' & Hgm' & Hmax' & Hmin' & _ & _ & Hst).
  destruct (first_argmax_unique _ _ _ _ _ Hpk Hpk') as [<- _].
  destruct (first_argmin_unique _ _ _ _ _ Hmn Hmn') as [<- _].
  rewrite (max_unique _ _ _ Hmax Hmax'), (min_unique _ _ _ Hmin Hmin').
  congruence.
Qed.

(** Settles [is_first_argmax], [is_first_argmin], [is_max] and [is_min] on a
    concrete list. *)
Ltac concrete_extremum :=
  first
    [ split; [reflexivity | split];
      [ intros j z Hj;
        repeat (destruct j as [|j]; simpl in Hj;
                [injection Hj as <-; lra|]);
        destruct j; discriminate
      | intros j z Hlt Hj;
        repeat (destruct j as [|j]; simpl in Hj;
                [injection Hj as <-; (lra || lia)|]);
        lia || (destruct j; discriminate) ]
    | split; [simpl; tauto | intros y Hy; simpl in Hy; intuition lra] ].

Lemma stage0_example_far :
  stage0 (map Fin [0; 1023]%R) (map Fin [5; 1]%R)
  = Ok (Spec.stage0_box 0 1023 5 1).
Proof.
  apply (stage0_reals_at [0; 1023]%R [5; 1]%R 0 1 0 1023 5 1 5 1);
    try reflexivity; concrete_extremum.
Qed.

Lemma xle_Fin (a b : R) : xle (Fin a) (Fin b) <-> (a <= b)%R.
Proof.
  unfold xle, xleb, Rleb. destruct (Rle_dec a b); split; intros; auto; discriminate.
Qed.

Lemma pi_over_le (d : R) :
  (0 < d)%R -> (PI / 1023 <= PI / d <-> d <= 1023)%R.
Proof.
  intros Hd. pose proof PI_RGT_0 as Hpi. unfold Rdiv. split.
  - intros Hle. apply Rnot_lt_le. intros Hlt.
    assert (/ d < / 1023)%R by (apply Rinv_lt_contravar; nra). nra.
  - intros Hle.
    assert (/ 1023 <= / d)%R by (apply Rinv_le_contravar; lra). nra.
Qed.

(** The frequency component of the stage-0 box is ordered exactly when the
    peak and the minimum are at most 511.5 greyscale steps apart. *)
Lemma freq_bound_holds (g_peak g_min y_max y_min : R) :
  Spec.bound_holds (Spec.stage0_box g_peak g_min y_max y_min) 2
  <-> (2 * Rabs (g_peak - g_min) <= 1023)%R.
Proof.
  unfold Spec.bound_holds.
  cbn [Spec.stage0_box lower guess upper nth_error].
  destruct (Req_dec_T g_peak g_min) as [-> | Hne].
  - rewrite freq_guess_coincide. split.
    + intros _. rewrite Rminus_diag, Rabs_R0. lra.
    + intros _. exists (Fin (PI / 1023)), PInf, PInf.
      unfold xmul, signed_inf. rewrite Rltb_true by lra.
      repeat split; reflexivity.
  - assert (Hd : (0 < 2 * Rabs (g_peak - g_min))%R).
    { assert (0 < Rabs (g_peak - g_min))%R by (apply Rabs_pos_lt; lra). lra. }
    rewrite <- (pi_over_le _ Hd). rewrite freq_guess_distinct by exact Hne.
    split.
    + intros (lo & g & hi & Hlo & Hg & Hhi & Hle1 & Hle2).
      injection Hlo as <-. injection Hg as <-.
      apply xle_Fin in Hle1. exact Hle1.
    + intros Hle. do 3 eexists. repeat (split; [reflexivity|]).
      split; apply xle_Fin; lra.
Qed.

(** C8, as the claim states it, fails: on the dataset
    (0, 5), (1023, 1), whose intensities are non-negative, the frequency
    lower bound pi/1023 exceeds the guess pi/2046, which exceeds the upper
    bound 0; stage 0 returns this triple without an error.  The same happens
    in binary64. *)
Lemma stage0_frequency_bound_violated :
  (forall y, In y [5; 1]%R -> (0 <= y)%R) /\
  (exists gb lo g hi,
      stage0 (map Fin [0; 1023]%R) (map Fin [5; 1]%R) = Ok gb /\
      nth_error (lower gb) 2 = Some (Fin lo) /\
      nth_error (guess gb) 2 = Some (Fin g) /\
      nth_error (upper gb) 2 = Some (Fin hi) /\
      (g < lo)%R /\ (hi < g)%R /\
      ~ Spec.bound_holds gb 2) /\
  (exists gb lo g hi,
      stage0 [0; 1023]%float [5; 1]%float = Ok gb /\
      nth_error (lower gb) 2 = Some lo /\
      nth_error (guess gb) 2 = Some g /\
      nth_error (upper gb) 2 = Some hi /\
      PrimFloat.leb lo g = false /\ PrimFloat.leb g hi = false).
Proof.
  split; [|split].
  - intros y Hy. simpl in Hy. intuition lra.
  - assert (Hfreq : Spec.freq_guess 0 1023 = Fin (PI / 2046)).
    { rewrite freq_guess_distinct by lra. do 2 f_equal.
      rewrite Rabs_left by lra. lra. }
    pose proof PI_RGT_0 as Hpi.
    exists (Spec.stage0_box 0 1023 5 1), (PI / 1023)%R, (PI / 2046)%R,
           (2 * (PI / 2046) - PI / 1023)%R.
    split; [exact stage0_example_far|].
    cbn [Spec.stage0_box lower guess upper nth_error]. rewrite Hfreq.
    repeat (split; [reflexivity || lra|]).
    rewrite freq_bound_holds. rewrite Rabs_left by lra. lra.
  - eexists; do 3 eexists. split; [vm_compute; reflexivity|].
    repeat split; vm_compute; reflexivity.
Qed.

(** C8, amended: for every dataset with non-negative intensities stage 0
    returns a triple (it makes no check and raises no error) in which
    lower <= guess <= upper holds for the phase offset, the amplitude and
    the intensity floor; for the frequency it holds exactly when
    2 |g_peak - g_min| <= 1023, g_peak and g_min being the greyscales at the
    peak of the first 30 samples and at the minimum. *)
Theorem stage0_bounds_ordered (gs ys : list R) :
  ys <> [] -> length gs = length ys ->
  (forall y, In y ys -> (0 <= y)%R) ->
  exists (ipk imn : nat) (g_peak g_min y_pk y_mn : R) (gb : GuessBounds xreal),
    Spec.is_first_argmax (firstn 30 ys) ipk y_pk /\
    nth_error gs ipk = Some g_peak /\
    Spec.is_first_argmin ys imn y_mn /\
    nth_error gs imn = Some g_min /\
    stage0 (map Fin gs) (map Fin ys) = Ok gb /\
    Spec.bound_holds gb 0 /\
    Spec.bound_holds gb 1 /\
    Spec.bound_holds gb 3 /\
    (Spec.bound_holds gb 2 <-> (2 * Rabs (g_peak - g_min) <= 1023)%R).
Proof.
  intros Hne Hlen Hpos.
  destruct (stage0_reals gs ys Hne Hlen)
    as (ipk & imn & g_peak & g_min & y_pk & y_mn & y_max & y_min &
        Hpk & Hgp & Hmn & Hgm & Hmax & Hmin & _ & _ & Hst).
  exists ipk, imn, g_peak, g_min, y_pk, y_mn,
         (Spec.stage0_box g_peak g_min y_max y_min).
  repeat (split; [assumption|]).
  assert (Hmin0 : (0 <= y_min)%R) by (apply Hpos; apply Hmin).
  split; [|split; [|split]].
  - do 3 eexists. repeat (split; [reflexivity|]).
    split; apply xle_Fin; lra.
  - do 3 eexists. repeat (split; [reflexivity|]).
    split; apply xle_Fin; lra.
  - do 3 eexists. repeat (split; [reflexivity|]).
    split; apply xle_Fin; lra.
  - apply freq_bound_holds.
Qed.

Lemma stage0_bounds_ordered_witness :
  exists (ipk imn : nat) (g_peak g_min y_pk y_mn : R) (gb : GuessBounds xreal),
    Spec.is_first_argmax (firstn 30 [5; 1]%R) ipk y_pk /\
    nth_error [0; 1]%R ipk = Some g_peak /\
    Spec.is_first_argmin [5; 1]%R imn y_mn /\
    nth_error [0; 1]%R imn = Some g_min /\
    stage0 (map Fin [0; 1]%R) (map Fin [5; 1]%R) = Ok gb /\
    Spec.bound_holds gb 0 /\
    Spec.bound_holds gb 1 /\
    Spec.bound_holds gb 3 /\
    (Spec.bound_holds gb 2 <-> (2 * Rabs (g_peak - g_min) <= 1023)%R).
Proof.
  apply (stage0_bounds_ordered [0; 1]%R [5; 1]%R);
    [discriminate | reflexivity | intros y Hy; simpl in Hy; intuition lra].
Defined.

(** * Runs of the script *)

Section RunsOfMain.

Context {F : Type} `{NumpyFloat F}.
Variable solver : FitCall F -> result (FitResult F) -> Prop.

(** What a run of the script can be: either it stops before any fit, or it
    makes the stage-0 call on the first file and nothing else. *)
Lemma main_runs_inv (files : list (list (F * F)))
      (tr : list (event F)) (out : result unit) :
  runs solver (main files) tr out ->
  (tr = [] /\ exists e, out = Raise e) \/
  (exists rows gb r,
      nth_error files 0 = Some rows /\
      (2 <= length rows)%nat /\
      stage0 (map fst rows) (map snd rows) = Ok gb /\
      solver (stage0_call (map fst rows) (map snd rows) gb) r /\
      tr = EvFit (stage0_call (map fst rows) (map snd rows) gb) r
           :: match r with
              | Ok res => [EvPrint (fst res)]
              | Raise _ => []
              end /\
      out = match r with
            | Ok _ => Ok tt
            | Raise e => Raise e
            end).
Proof.
  unfold main. cbn [seq for_each].
  destruct files as [|rows rest]; cbn [nth_error seq_script].
  { intros Hrun. inversion Hrun; subst. left. split; [reflexivity | eauto]. }
  destruct rows as [|r1 [|r2 rows]]; cbn [body_on_file seq_script].
  { intros Hrun. inversion Hrun; subst. left. split; [reflexivity | eauto]. }
  { intros Hrun. inversion Hrun; subst. left. split; [reflexivity | eauto]. }
  unfold fit_dataset.
  destruct (stage0 (map fst (r1 :: r2 :: rows)) (map snd (r1 :: r2 :: rows)))
    as [gb | e] eqn:Hst; cbn [seq_script].
  - intros Hrun. right. exists (r1 :: r2 :: rows), gb.
    inversion Hrun as [| | c k res tr' out' Hsolve Hrest | c k e Hsolve |]; subst.
    + exists (Ok res). cbn [seq_script] in Hrest.
      inversion Hrest as [| | | | v k' tr'' out'' Hret]; subst.
      inversion Hret; subst.
      repeat split; try assumption; try reflexivity. simpl; lia.
    + exists (Raise e).
      repeat split; try assumption; try reflexivity. simpl; lia.
  - intros Hrun. inversion Hrun; subst. left. split; [reflexivity | eauto].
Qed.

End RunsOfMain.

Section FitsOfMain.

Context {F : Type} `{NumpyFloat F}.
Variable solver : FitCall F -> result (FitResult F) -> Prop.

(** When the first file has two rows or more and stage 0 returns, every run
    starts with the stage-0 call. *)
Lemma main_reaches_solver (rows : list (F * F)) (rest : list (list (F * F)))
      (gb : GuessBounds F) (tr : list (event F)) (out : result unit) :
  (2 <= length rows)%nat ->
  stage0 (map fst rows) (map snd rows) = Ok gb ->
  runs solver (main (rows :: rest)) tr out ->
  exists r tl,
    tr = EvFit (stage0_call (map fst rows) (map snd rows) gb) r :: tl /\
    solver (stage0_call (map fst rows) (map snd rows) gb) r.
Proof.
  intros Hlen Hst Hrun.
  destruct (main_runs_inv solver _ _ _ Hrun)
    as [[-> _] | (rows' & gb' & r & Hnth & _ & Hst' & Hsolve & -> & _)].
  - exfalso. revert Hrun. unfold main. cbn [seq for_each nth_error].
    destruct rows as [|r1 [|r2 rows]]; simpl in Hlen; try lia.
    cbn [body_on_file]. unfold fit_dataset. rewrite Hst. cbn [seq_script].
    intros Hrun. inversion Hrun.
  - simpl in Hnth. injection Hnth as <-.
    rewrite Hst in Hst'. injection Hst' as <-. eauto.
Qed.

(** Every fit of a run is the stage-0 linear fit of the first file. *)
Lemma main_fit_calls (files : list (list (F * F)))
      (tr : list (event F)) (out : result unit) (c : FitCall F) :
  runs solver (main files) tr out ->
  In c (fit_calls tr) ->
  exists rows gb,
    nth_error files 0 = Some rows /\
    stage0 (map fst rows) (map snd rows) = Ok gb /\
    c = stage0_call (map fst rows) (map snd rows) gb.
Proof.
  intros Hrun Hin.
  destruct (main_runs_inv solver _ _ _ Hrun)
    as [[-> _] | (rows & gb & r & Hnth & _ & Hst & _ & -> & _)].
  - destruct Hin.
  - exists rows, gb. repeat (split; [assumption|]).
    destruct r as [res | e]; simpl in Hin; intuition congruence.
Qed.

Lemma body_on_file_two (rows : list (F * F)) :
  (2 <= length rows)%nat ->
  body_on_file rows = fit_dataset (map fst rows) (map snd rows).
Proof.
  destruct rows as [|r1 [|r2 rows]]; simpl; intros Hlen; try lia. reflexivity.
Qed.

(** On a first file of two rows or more for which stage 0 returns, the
    script is the stage-0 call followed by the print of what it returned. *)
Lemma main_on_first_file (rows : list (F * F)) (rest : list (list (F * F)))
      (gb : GuessBounds F) :
  (2 <= length rows)%nat ->
  stage0 (map fst rows) (map snd rows) = Ok gb ->
  main (rows :: rest)
  = CurveFit (stage0_call (map fst rows) (map snd rows) gb)
             (fun r => Print (fst r) (Return tt)).
Proof.
  intros Hlen Hst. unfold main. cbn [seq for_each nth_error].
  rewrite body_on_file_two by exact Hlen.
  unfold fit_dataset. rewrite Hst. reflexivity.
Qed.

(** Every answer of the solver to the stage-0 call gives a run. *)
Lemma main_run_exists (rows : list (F * F)) (rest : list (list (F * F)))
      (gb : GuessBounds F) (r : result (FitResult F)) :
  (2 <= length rows)%nat ->
  stage0 (map fst rows) (map snd rows) = Ok gb ->
  solver (stage0_call (map fst rows) (map snd rows) gb) r ->
  exists tr out,
    runs solver (main (rows :: rest)) tr out /\
    In (EvFit (stage0_call (map fst rows) (map snd rows) gb) r) tr.
Proof.
  intros Hlen Hst Hsolve. rewrite (main_on_first_file rows rest gb Hlen Hst).
  destruct r as [res | e].
  - exists [EvFit (stage0_call (map fst rows) (map snd rows) gb) (Ok res);
            EvPrint (fst res)], (Ok tt).
    split; [|left; reflexivity].
    apply runs_fit; [exact Hsolve|]. apply runs_print. apply runs_return.
  - exists [EvFit (stage0_call (map fst rows) (map snd rows) gb) (Raise e)],
           (Raise e).
    split; [|left; reflexivity].
    apply runs_fit_raise. exact Hsolve.
Qed.

(** Every run on such a file makes exactly the stage-0 call. *)
Lemma main_fits_once (rows : list (F * F)) (rest : list (list (F * F)))
      (gb : GuessBounds F) (tr : list (event F)) (out : result unit) :
  (2 <= length rows)%nat ->
  stage0 (map fst rows) (map snd rows) = Ok gb ->
  runs solver (main (rows :: rest)) tr out ->
  fit_calls tr = [stage0_call (map fst rows) (map snd rows) gb].
Proof.
  intros Hlen Hst Hrun.
  destruct (main_reaches_solver rows rest gb tr out Hlen Hst Hrun)
    as (r & tl & Htr & _).
  destruct (main_runs_inv solver _ _ _ Hrun)
    as [[Hnil _] | (rows' & gb' & r' & Hnth & _ & Hst' & _ & Htr' & _)].
  - rewrite Hnil in Htr. discriminate.
  - simpl in Hnth. injection Hnth as <-.
    rewrite Hst in Hst'. injection Hst' as <-.
    rewrite Htr'. destruct r'; reflexivity.
Qed.

End FitsOfMain.

(** * The cascade *)

(** C3, as the claim states it, fails: with two datasets supplied, in
    binary64, no run of the script performs the cascade, whatever the solver
    returns; against a solver that returns its initial guess the script
    terminates normally after a single fit, the linear one on the first
    dataset. *)
Lemma cascade_not_performed :
  let files := [[(0, 5); (1, 1)]; [(0, 7); (1, 2)]]%float in
  (forall solver tr out,
      runs solver (main files) tr out -> ~ Spec.cascade_complete files tr) /\
  (exists tr,
      runs echo_solver (main files) tr (Ok tt) /\
      map f (fit_calls tr) = [linear_cos_square_f] /\
      map xdata (fit_calls tr) = [[0; 1]%float] /\
      map ydata (fit_calls tr) = [[5; 1]%float]).
Proof.
  intros files. split.
  - intros solver tr out Hrun Hall.
    destruct (Hall [(0, 5); (1, 1)]%float (or_introl eq_refl)
                   nonlinear1_cos_square_f)
      as (c & Hin & Hf & _).
    destruct (main_fit_calls solver files tr out c Hrun Hin)
      as (rows & gb & _ & _ & ->).
    discriminate.
  - set (gb := {| guess := [0; 5; PrimFloat.div np_pi 2; 1]%float;
                  lower := [-50; -5; PrimFloat.div np_pi 1023; 0]%float;
                  upper := [50; 15;
                            PrimFloat.sub
                              (PrimFloat.mul 2 (PrimFloat.div np_pi 2))
                              (PrimFloat.div np_pi 1023);
                            10]%float |}).
    set (c := stage0_call [0; 1]%float [5; 1]%float gb).
    exists [EvFit c (Ok (p0 c, [])); EvPrint (p0 c)].
    split; [|repeat split].
    apply (runs_fit echo_solver c _ (p0 c, [])); [reflexivity|].
    apply runs_print. apply runs_return.
Qed.

(** C3, amended: the script runs stage 0 only, on the first supplied
    dataset.  When that dataset has two rows or more and stage 0 returns,
    the script builds the guess and bounds from that dataset alone and fits
    the linear model with them: whatever the solver answers to that call
    there is a run in which it is made, and every run makes exactly this
    one fit.  In every run on any files, every fit that is made is such a
    stage-0 linear fit of a supplied dataset; no first-order or second-order
    fit is made. *)
Theorem fits_are_stage0_linear {F : Type} `{NumpyFloat F}
        (solver : FitCall F -> result (FitResult F) -> Prop)
        (rows : list (F * F)) (rest : list (list (F * F)))
        (gb : GuessBounds F) :
  (2 <= length rows)%nat ->
  stage0 (map fst rows) (map snd rows) = Ok gb ->
  let files := rows :: rest in
  let c := stage0_call (map fst rows) (map snd rows) gb in
  f c = linear_cos_square_f /\
  (forall r, solver c r ->
             exists tr out, runs solver (main files) tr out /\
                            In (EvFit c r) tr) /\
  (forall tr out, runs solver (main files) tr out -> fit_calls tr = [c]) /\
  (forall files' tr out c',
      runs solver (main files') tr out ->
      In c' (fit_calls tr) ->
      f c' = linear_cos_square_f /\
      exists rows' gb',
        In rows' files' /\
        stage0 (map fst rows') (map snd rows') = Ok gb' /\
        c' = stage0_call (map fst rows') (map snd rows') gb').
Proof.
  intros Hlen Hst files c. subst files c.
  split; [reflexivity|]. split; [|split].
  - intros r Hsolve. exact (main_run_exists solver rows rest gb r Hlen Hst Hsolve).
  - intros tr out Hrun. exact (main_fits_once solver rows rest gb tr out Hlen Hst Hrun).
  - intros files' tr out c' Hrun Hin.
    destruct (main_fit_calls solver files' tr out c' Hrun Hin)
      as (rows' & gb' & Hnth & Hst' & ->).
    split; [reflexivity|].
    exists rows', gb'. split; [|split; [exact Hst' | reflexivity]].
    eapply nth_error_In. exact Hnth.
Qed.

Lemma fits_are_stage0_linear_witness :
  let rows := [(0, 5); (1, 1)]%float in
  let rest := [[(0, 7); (1, 2)]]%float in
  let gb := {| guess := [0; 5; PrimFloat.div np_pi 2; 1]%float;
               lower := [-50; -5; PrimFloat.div np_pi 1023; 0]%float;
               upper := [50; 15;
                         PrimFloat.sub (PrimFloat.mul 2 (PrimFloat.div np_pi 2))
                                       (PrimFloat.div np_pi 1023);
                         10]%float |} in
  let files := rows :: rest in
  let c := stage0_call (map fst rows) (map snd rows) gb in
  f c = linear_cos_square_f /\
  (forall r, echo_solver c r ->
             exists tr out, runs echo_solver (main files) tr out /\
                            In (EvFit c r) tr) /\
  (forall tr out, runs echo_solver (main files) tr out ->
                  fit_calls tr = [c]) /\
  (forall (files' : list (list (float * float))) tr out c',
      runs echo_solver (main files') tr out ->
      In c' (fit_calls tr) ->
      f c' = linear_cos_square_f /\
      exists rows' gb',
        In rows' files' /\
        stage0 (map fst rows') (map snd rows') = Ok gb' /\
        c' = stage0_call (map fst rows') (map snd rows') gb').
Proof.
  intros rows rest gb.
  apply (fits_are_stage0_linear echo_solver rows rest gb);
    [simpl; lia | reflexivity].
Defined.

(** * Degenerate datasets *)

Lemma finite_rows_columns (rows : list (R * R)) :
  map fst (Spec.finite_rows rows) = map Fin (map fst rows) /\
  map snd (Spec.finite_rows rows) = map Fin (map snd rows).
Proof.
  unfold Spec.finite_rows. rewrite !map_map. split; reflexivity.
Qed.

(** C7, as the claim states it, fails: on the dataset (0, 5), (1, 5), whose
    intensities are all equal, peak and minimum are both at index 0; in
    binary64 stage 0 returns normally with the frequency guess +inf, and
    every run of the script on this file calls the solver. *)
Lemma degenerate_dataset_is_fitted :
  let rows := [(0, 5); (1, 5)]%float in
  np_argmax (firstn 30 (map snd rows)) = Ok 0%nat /\
  np_argmin (map snd rows) = Ok 0%nat /\
  exists gb,
    stage0 (map fst rows) (map snd rows) = Ok gb /\
    guess gb = [0; 5; infinity; 5]%float /\
    forall solver tr out,
      runs solver (main [rows]) tr out ->
      exists r tl,
        tr = EvFit (stage0_call (map fst rows) (map snd rows) gb) r :: tl.
Proof.
  intros rows. split; [reflexivity | split; [reflexivity|]].
  eexists. split; [vm_compute; reflexivity|]. split; [reflexivity|].
  intros solver tr out Hrun.
  eapply main_reaches_solver in Hrun as (r & tl & -> & _);
    [ eauto | simpl; lia | vm_compute; reflexivity ].
Qed.

(** C7, amended: for every dataset in which the greyscale at the intensity
    peak coincides with the greyscale at the intensity minimum, stage 0
    raises no error: the division is a float64 division by zero, the
    frequency guess is +inf with bounds [pi/1023, +inf], and when the
    dataset has two samples or more every run of the script calls the solver
    with this guess. *)
Theorem coinciding_peak_and_minimum (rows : list (R * R)) :
  let gs := map fst rows in
  let ys := map snd rows in
  rows <> [] ->
  (forall ipk imn y_pk y_mn,
      Spec.is_first_argmax (firstn 30 ys) ipk y_pk ->
      Spec.is_first_argmin ys imn y_mn ->
      nth_error gs ipk = nth_error gs imn) ->
  exists gb,
    stage0 (map Fin gs) (map Fin ys) = Ok gb /\
    nth_error (guess gb) 2 = Some PInf /\
    nth_error (lower gb) 2 = Some (Fin (PI / 1023)) /\
    nth_error (upper gb) 2 = Some PInf /\
    ((2 <= length rows)%nat ->
     forall solver rest tr out,
       runs solver (main (Spec.finite_rows rows :: rest)) tr out ->
       exists r tl,
         tr = EvFit (stage0_call (map Fin gs) (map Fin ys) gb) r :: tl /\
         nth_error (p0 (stage0_call (map Fin gs) (map Fin ys) gb)) 2
         = Some PInf).
Proof.
  intros gs ys Hne Hsame.
  assert (Hys : ys <> []) by (subst ys; destruct rows; [congruence | discriminate]).
  assert (Hlen : length gs = length ys) by (subst gs ys; rewrite !length_map; reflexivity).
  destruct (stage0_reals gs ys Hys Hlen)
    as (ipk & imn & g_peak & g_min & y_pk & y_mn & y_max & y_min &
        Hpk & Hgp & Hmn & Hgm & Hmax & Hmin & _ & _ & Hst).
  assert (Heq : g_peak = g_min).
  { specialize (Hsame _ _ _ _ Hpk Hmn). congruence. }
  subst g_min.
  assert (Hupper : xsub (xmul (Fin 2) (Spec.freq_guess g_peak g_peak))
                        (Fin (PI / 1023)) = PInf).
  { rewrite freq_guess_coincide. unfold xmul, signed_inf.
    rewrite Rltb_true by lra. reflexivity. }
  exists (Spec.stage0_box g_peak g_peak y_max y_min).
  split; [exact Hst|].
  cbn [Spec.stage0_box guess lower upper nth_error].
  rewrite Hupper, freq_guess_coincide.
  repeat (split; [reflexivity|]).
  intros Hrows solver rest tr out Hrun.
  destruct (finite_rows_columns rows) as [Hfst Hsnd].
  fold gs in Hfst. fold ys in Hsnd.
  eapply main_reaches_solver in Hrun as (r & tl & -> & _).
  - rewrite Hfst, Hsnd. exists r, tl. split; [reflexivity|].
    cbn [stage0_call p0 Spec.stage0_box guess nth_error].
    rewrite freq_guess_coincide. reflexivity.
  - unfold Spec.finite_rows. rewrite length_map. exact Hrows.
  - rewrite Hfst, Hsnd. exact Hst.
Qed.

Lemma coinciding_peak_and_minimum_witness :
  let rows := [(0, 5); (1, 5)]%R in
  let gs := map fst rows in
  let ys := map snd rows in
  exists gb,
    stage0 (map Fin gs) (map Fin ys) = Ok gb /\
    nth_error (guess gb) 2 = Some PInf /\
    nth_error (lower gb) 2 = Some (Fin (PI / 1023)) /\
    nth_error (upper gb) 2 = Some PInf /\
    ((2 <= length rows)%nat ->
     forall solver rest tr out,
       runs solver (main (Spec.finite_rows rows :: rest)) tr out ->
       exists r tl,
         tr = EvFit (stage0_call (map Fin gs) (map Fin ys) gb) r :: tl /\
         nth_error (p0 (stage0_call (map Fin gs) (map Fin ys) gb)) 2
         = Some PInf).
Proof.
  apply (coinciding_peak_and_minimum [(0, 5); (1, 5)]%R); [discriminate|].
  intros ipk imn y_pk y_mn Hpk Hmn.
  assert (Hpk0 : Spec.is_first_argmax (firstn 30 (map snd [(0, 5); (1, 5)]%R)) 0 5)
    by concrete_extremum.
  assert (Hmn0 : Spec.is_first_argmin (map snd [(0, 5); (1, 5)]%R) 0 5)
    by concrete_extremum.
  destruct (first_argmax_unique _ _ _ _ _ Hpk Hpk0) as [-> _].
  destruct (first_argmin_unique _ _ _ _ _ Hmn Hmn0) as [-> _].
  reflexivity.
Defined.

(** * The fit engine *)

Lemma main_fit_events {F : Type} `{NumpyFloat F}
      (solver : FitCall F -> result (FitResult F) -> Prop)
      (files : list (list (F * F)))
      (tr : list (event F)) (out : result unit)
      (c : FitCall F) (r : result (FitResult F)) :
  runs solver (main files) tr out ->
  In (EvFit c r) tr ->
  exists rows gb,
    nth_error files 0 = Some rows /\
    stage0 (map fst rows) (map snd rows) = Ok gb /\
    c = stage0_call (map fst rows) (map snd rows) gb /\
    solver c r.
Proof.
  intros Hrun Hin.
  destruct (main_runs_inv solver _ _ _ Hrun)
    as [[-> _] | (rows & gb & r' & Hnth & _ & Hst & Hsolve & -> & _)].
  - destruct Hin.
  - exists rows, gb. repeat (split; [assumption|]).
    destruct Hin as [Heq | Hin].
    + injection Heq as <- <-. split; [reflexivity | exact Hsolve].
    + destruct r' as [res | e]; simpl in Hin; [|destruct Hin].
      destruct Hin as [Heq | []]. discriminate.
Qed.

Lemma REL_Y_ERR_xreal : (REL_Y_ERR : xreal) = Fin 0.0012.
Proof.
  unfold REL_Y_ERR, decimal. cbn. rewrite Reqb_false by lra. reflexivity.
Qed.


Lemma xpow2_nonneg (a : xreal) : xnonneg (xpow a 2).
Proof. destruct a; simpl; try exact I. nra. Qed.

Lemma xdiv_nonneg (a b : xreal) : xnonneg a -> xnonneg b -> xnonneg (xdiv a b).
Proof.
  destruct a as [x| | |], b as [y| | |]; simpl; intros Ha Hb;
    try exact I; try contradiction; try lra.
  - unfold Reqb. destruct (Req_dec_T y 0) as [-> | Hy].
    + unfold signed_inf, Rltb.
      destruct (Rlt_dec 0 x); [exact I|].
      destruct (Rlt_dec x 0); [simpl; lra | exact I].
    + simpl. unfold Rdiv. apply Rmult_le_pos; [exact Ha|].
      left. apply Rinv_0_lt_compat. lra.
  - rewrite Rltb_false by exact Hb. exact I.
Qed.

Lemma xadd_nonneg (a b : xreal) : xnonneg a -> xnonneg b -> xnonneg (xadd a b).
Proof.
  destruct a, b; simpl; intros Ha Hb; try exact I; try contradiction. lra.
Qed.

Lemma weighted_sse_nonneg (m : model) (xs ys sigmas p : list xreal) (v : xreal) :
  Spec.weighted_sse m xs ys sigmas p = Ok v -> xnonneg v.
Proof.
  revert ys sigmas v. induction xs as [|x xs IH]; intros ys sigmas v;
    destruct ys as [|y ys], sigmas as [|sg sigmas]; simpl; try discriminate.
  - intros Hv. injection Hv as <-. simpl. lra.
  - destruct (call_model m x p) as [fx | e]; simpl; [|discriminate].
    destruct (Spec.weighted_sse m xs ys sigmas p) as [rest | e] eqn:Hrest;
      simpl; [|discriminate].
    intros Hv. injection Hv as <-.
    apply xadd_nonneg; [|eapply IH; exact Hrest].
    apply xdiv_nonneg; apply xpow2_nonneg.
Qed.


Lemma perfect_fit_freq : Spec.freq_guess 0 1 = Fin (PI / 2).
Proof.
  rewrite freq_guess_distinct by lra. f_equal.
  rewrite Rabs_left by lra. f_equal. lra.
Qed.

Lemma perfect_fit_objective :
  Spec.weighted_sse linear_cos_square_f
    (map Fin [0; 1]%R) (map Fin [4; 1]%R)
    (map (fun y => xmul (Fin 0.0012) y) (map Fin [4; 1]%R))
    PerfectFit.popt
  = Ok (Fin 0).
Proof.
  cbn. do 2 rewrite Reqb_false by lra.
  replace (PI / 2 * (0 + - 0))%R with 0%R by ring.
  replace (PI / 2 * (1 + - 0))%R with (PI / 2)%R by (unfold Rdiv; ring).
  rewrite cos_0, cos_PI2. cbn [xadd]. do 2 f_equal. unfold Rdiv. ring.
Qed.

Lemma perfect_fit_minimum :
  Spec.weighted_ls_minimum linear_cos_square_f
    (map Fin [0; 1]%R) (map Fin [4; 1]%R)
    (map (fun y => xmul (Fin 0.0012) y) (map Fin [4; 1]%R))
    (lower (Spec.stage0_box 0 1 4 1)) (upper (Spec.stage0_box 0 1 4 1))
    PerfectFit.popt.
Proof.
  pose proof PI_RGT_0 as Hpi. split; [|exists (Fin 0); split].
  - cbn [Spec.stage0_box lower upper]. rewrite perfect_fit_freq.
    split; repeat constructor; cbn; apply Rleb_true; lra.
  - exact perfect_fit_objective.
  - intros q vq _ Hq Hle. apply weighted_sse_nonneg in Hq.
    destruct vq as [r| | |]; simpl in *;
      try reflexivity; try discriminate; try contradiction.
    apply Rleb_true. exact Hq.
Qed.



(** The solver of the running example answers the stage-0 call of its
    dataset, and its answer is a minimum of the weighted sum. *)
Lemma perfect_fit_is_answered :
  PerfectFit.solver PerfectFit.call (Ok (PerfectFit.popt, [])) /\
  Spec.weighted_ls_minimum linear_cos_square_f
    (map Fin [0; 1]%R) (map Fin [4; 1]%R)
    (map (fun y => xmul (Fin 0.0012) y) (map Fin [4; 1]%R))
    (lower (Spec.stage0_box 0 1 4 1)) (upper (Spec.stage0_box 0 1 4 1))
    PerfectFit.popt.
Proof.
  split; [split; reflexivity | exact perfect_fit_minimum].
Qed.

(** * The phase register *)

(** C10 (fails on the code): at Phase = 0.29, the 29th spinbox value, Set
    Tuning writes int(0.29 * 100) = 28 to the register and the read paths
    give back 28 / 100 = 0.28; 69 of the 1000 spinbox values are lost in
    this way, while 2.00 is written as 200 and read back as 2.00. *)
Theorem phase_roundtrip_fails_at_029 :
  Slm.spin_value 29 = 0.29%float /\
  PrimFloat.mul 0.29 100 = 28.999999999999996%float /\
  Slm.set_tuning_phase 0.29%float = Some 28%Z /\
  Slm.write_then_read 0.29%float = Some 0.28%float /\
  PrimFloat.eqb 0.28 0.29 = false /\
  Slm.write_then_read 2%float = Some 2%float /\
  length Slm.lost_values = 69%nat /\
  firstn 4 Slm.lost_values = [29; 57; 58; 113]%Z.
Proof. vm_compute. repeat split; reflexivity. Qed.

(** * Further properties of [calibration/calibrate.py] *)

Section Stage0Generic.

Context {F : Type} `{NumpyFloat F}.

Lemma argmax_scan_lt (l : list F) (best : F) (bi i : nat) :
  (bi < i)%nat -> (argmax_scan best bi i l < i + length l)%nat.
Proof.
  revert best bi i. induction l as [|x t IH]; intros best bi i Hlt; simpl.
  - lia.
  - destruct (np_isnan best); [lia|].
    destruct (negb (np_leb x best)).
    + specialize (IH x i (S i)). lia.
    + specialize (IH best bi (S i)). lia.
Qed.

Lemma argmin_scan_lt (l : list F) (best : F) (bi i : nat) :
  (bi < i)%nat -> (argmin_scan best bi i l < i + length l)%nat.
Proof.
  revert best bi i. induction l as [|x t IH]; intros best bi i Hlt; simpl.
  - lia.
  - destruct (np_isnan best); [lia|].
    destruct (negb (np_leb best x)).
    + specialize (IH x i (S i)). lia.
    + specialize (IH best bi (S i)). lia.
Qed.

Lemma np_argmax_lt (a : list F) (i : nat) :
  np_argmax a = Ok i -> (i < length a)%nat.
Proof.
  destruct a as [|x t]; simpl; [discriminate|].
  intros Hi. injection Hi as <-.
  pose proof (argmax_scan_lt t x 0 1). lia.
Qed.

Lemma np_argmin_lt (a : list F) (i : nat) :
  np_argmin a = Ok i -> (i < length a)%nat.
Proof.
  destruct a as [|x t]; simpl; [discriminate|].
  intros Hi. injection Hi as <-.
  pose proof (argmin_scan_lt t x 0 1). lia.
Qed.

Lemma fold_maximum_In (t : list F) (x : F) :
  In (fold_left np_maximum t x) (x :: t).
Proof.
  revert x. induction t as [|a t IH]; intros x; simpl.
  - left. reflexivity.
  - destruct (IH (np_maximum x a)) as [Heq | Hin].
    + rewrite <- Heq. unfold np_maximum.
      destruct (np_isnan x); [left; reflexivity|].
      destruct (np_leb a x); [left | right; left]; reflexivity.
    + right. right. exact Hin.
Qed.

Lemma fold_minimum_In (t : list F) (x : F) :
  In (fold_left np_minimum t x) (x :: t).
Proof.
  revert x. induction t as [|a t IH]; intros x; simpl.
  - left. reflexivity.
  - destruct (IH (np_minimum x a)) as [Heq | Hin].
    + rewrite <- Heq. unfold np_minimum.
      destruct (np_isnan x); [left; reflexivity|].
      destruct (np_leb x a); [left | right; left]; reflexivity.
    + right. right. exact Hin.
Qed.

Lemma index_lt (a : list F) (i : nat) :
  (i < length a)%nat -> exists v, index a i = Ok v /\ nth_error a i = Some v.
Proof.
  intros Hi. unfold index.
  destruct (nth_error a i) as [v|] eqn:Hv.
  - exists v. split; reflexivity.
  - apply nth_error_None in Hv. lia.
Qed.

Lemma nth_error_firstn_In (a : list F) (n i : nat) (v : F) :
  (i < n)%nat -> nth_error a i = Some v -> In v (firstn n a).
Proof.
  revert n i. induction a as [|x t IH]; intros n i Hlt Hv.
  - destruct i; discriminate.
  - destruct n as [|n]; [lia|]. destruct i as [|i]; simpl in *.
    + injection Hv as ->. left. reflexivity.
    + right. apply (IH n i); [lia | exact Hv].
Qed.

End Stage0Generic.

(** X1: on two columns of equal length, stage 0 raises exactly when the
    dataset is empty, and then it is the ValueError of the empty argmax;
    otherwise it returns a guess and two bound vectors of four entries each,
    whatever the float64 values are (nan and infinities included). *)
Theorem stage0_raises_only_on_empty {F : Type} `{NumpyFloat F}
        (grey intensity : list F) :
  length grey = length intensity ->
  (intensity = [] -> stage0 grey intensity = Raise ValueError) /\
  (intensity <> [] ->
   exists gb, stage0 grey intensity = Ok gb /\
              length (guess gb) = 4%nat /\
              length (lower gb) = 4%nat /\
              length (upper gb) = 4%nat).
Proof.
  intros Hlen. split.
  - intros ->. reflexivity.
  - intros Hne. unfold stage0.
    destruct (np_argmax (firstn 30 intensity)) as [ipk | e] eqn:Hpk.
    2:{ destruct intensity; [congruence | discriminate]. }
    assert (Hipk : (ipk < length grey)%nat).
    { apply np_argmax_lt in Hpk. rewrite length_firstn in Hpk. lia. }
    destruct (index_lt grey ipk Hipk) as (g & Hg & _).
    cbn [bind]. rewrite Hg. cbn [bind].
    destruct intensity as [|y0 t]; [congruence|].
    cbn [np_max np_min bind].
    destruct (np_argmin (y0 :: t)) as [imn | e] eqn:Hmn; [|discriminate].
    assert (Himn : (imn < length grey)%nat).
    { apply np_argmin_lt in Hmn. lia. }
    destruct (index_lt grey imn Himn) as (g' & Hg' & _).
    cbn [bind]. rewrite Hg'. cbn [bind].
    eexists. split; [reflexivity|]. repeat split.
Qed.

Lemma stage0_raises_only_on_empty_witness :
  (([5; nan; 1]%float : list float) = [] ->
   stage0 [0; 1; 2]%float [5; nan; 1]%float = Raise ValueError) /\
  (([5; nan; 1]%float : list float) <> [] ->
   exists gb, stage0 [0; 1; 2]%float [5; nan; 1]%float = Ok gb /\
              length (guess gb) = 4%nat /\
              length (lower gb) = 4%nat /\
              length (upper gb) = 4%nat).
Proof.
  apply (stage0_raises_only_on_empty [0; 1; 2]%float [5; nan; 1]%float).
  reflexivity.
Defined.

(** X2: whenever stage 0 returns, its guesses are samples of the dataset:
    the phase-offset guess is one of the first 30 greyscales, and the
    amplitude and intensity-floor guesses are intensities of the dataset. *)
Theorem stage0_guess_from_data {F : Type} `{NumpyFloat F}
        (grey intensity : list F) (gb : GuessBounds F) :
  stage0 grey intensity = Ok gb ->
  exists ps_guess scale_guess freq_guess i_shift,
    guess gb = [ps_guess; scale_guess; freq_guess; i_shift] /\
    In ps_guess (firstn 30 grey) /\
    In scale_guess intensity /\
    In i_shift intensity.
Proof.
  unfold stage0.
  destruct (np_argmax (firstn 30 intensity)) as [ipk | e] eqn:Hpk;
    [|discriminate].
  cbn [bind]. unfold index at 1.
  destruct (nth_error grey ipk) as [g|] eqn:Hg; [|discriminate].
  cbn [bind].
  destruct intensity as [|y0 t]; [discriminate|].
  cbn [np_max np_min bind].
  unfold index at 1. rewrite Hg. cbn [bind].
  destruct (np_argmin (y0 :: t)) as [imn | e]; [|discriminate].
  cbn [bind].
  destruct (index grey imn) as [g'|e]; [|discriminate].
  cbn [bind]. intros Hgb. injection Hgb as <-.
  do 4 eexists. split; [reflexivity|]. split; [|split].
  - apply np_argmax_lt in Hpk. rewrite length_firstn in Hpk.
    apply (nth_error_firstn_In grey 30 ipk); [lia | exact Hg].
  - apply fold_maximum_In.
  - apply fold_minimum_In.
Qed.

Lemma stage0_guess_from_data_witness :
  exists ps_guess scale_guess freq_guess i_shift,
    [0; 5; PrimFloat.div np_pi 2; 1]%float
    = [ps_guess; scale_guess; freq_guess; i_shift] /\
    In ps_guess (firstn 30 [0; 1]%float) /\
    In scale_guess [5; 1]%float /\
    In i_shift [5; 1]%float.
Proof.
  apply (stage0_guess_from_data [0; 1]%float [5; 1]%float
           {| guess := [0; 5; PrimFloat.div np_pi 2; 1]%float;
              lower := [-50; -5; PrimFloat.div np_pi 1023; 0]%float;
              upper := [50; 15;
                        PrimFloat.sub (PrimFloat.mul 2 (PrimFloat.div np_pi 2))
                                      (PrimFloat.div np_pi 1023);
                        10]%float |}).
  reflexivity.
Defined.

(** ** The stage-0 box on finite data *)

(** X3: for every non-empty dataset of finite values, the intensity-floor
    bounds that stage 0 builds are ordered (lower <= guess <= upper)
    exactly when the smallest intensity is not negative; the amplitude
    bounds are ordered whenever it is not negative, and the phase-offset
    bounds always.  For the amplitude the converse is left out, since it
    fails in float64: on intensities 5 and -1e-300 the product 10 * i_shift
    is absorbed in the sum, and lower, guess and upper are all 5. *)
Theorem floor_bounds_ordered_iff (gs ys : list R) :
  ys <> [] -> length gs = length ys ->
  (exists (y_min : R) (gb : GuessBounds xreal),
      Spec.is_min ys y_min /\
      stage0 (map Fin gs) (map Fin ys) = Ok gb /\
      Spec.bound_holds gb 0 /\
      ((0 <= y_min)%R -> Spec.bound_holds gb 1) /\
      (Spec.bound_holds gb 3 <-> (0 <= y_min)%R)) /\
  (exists gb : GuessBounds float,
      stage0 [0; 1]%float [5; -1e-300]%float = Ok gb /\
      nth_error (lower gb) 1 = Some 5%float /\
      nth_error (guess gb) 1 = Some 5%float /\
      nth_error (upper gb) 1 = Some 5%float).
Proof.
  intros Hne Hlen. split.
  2: { eexists. split; [vm_compute; reflexivity|].
       repeat split. }
  destruct (stage0_reals gs ys Hne Hlen)
    as (ipk & imn & g_peak & g_min & y_pk & y_mn & y_max & y_min &
        _ & _ & _ & _ & _ & Hmin & _ & _ & Hst).
  exists y_min, (Spec.stage0_box g_peak g_min y_max y_min).
  split; [exact Hmin|]. split; [exact Hst|].
  unfold Spec.bound_holds.
  cbn [Spec.stage0_box lower guess upper nth_error].
  split; [|split; [|split]].
  - do 3 eexists. repeat (split; [reflexivity|]). split; apply xle_Fin; lra.
  - intros Hpos. do 3 eexists. repeat (split; [reflexivity|]).
    split; apply xle_Fin; lra.
  - intros (lo & g & hi & Hlo & Hg & Hhi & Hle1 & Hle2).
    injection Hlo as <-. injection Hg as <-.
    apply xle_Fin in Hle1. exact Hle1.
  - intros Hpos. do 3 eexists. repeat (split; [reflexivity|]).
    split; apply xle_Fin; lra.
Qed.

Lemma floor_bounds_ordered_iff_witness :
  (exists (y_min : R) (gb : GuessBounds xreal),
      Spec.is_min [5; -1]%R y_min /\
      stage0 (map Fin [0; 1]%R) (map Fin [5; -1]%R) = Ok gb /\
      Spec.bound_holds gb 0 /\
      ((0 <= y_min)%R -> Spec.bound_holds gb 1) /\
      (Spec.bound_holds gb 3 <-> (0 <= y_min)%R)) /\
  (exists gb : GuessBounds float,
      stage0 [0; 1]%float [5; -1e-300]%float = Ok gb /\
      nth_error (lower gb) 1 = Some 5%float /\
      nth_error (guess gb) 1 = Some 5%float /\
      nth_error (upper gb) 1 = Some 5%float).
Proof.
  apply (floor_bounds_ordered_iff [0; 1]%R [5; -1]%R);
    [discriminate | reflexivity].
Defined.

Lemma nth_error_In_bounds (gs : list R) (i : nat) (g : R) :
  (forall x, In x gs -> (0 <= x <= 1023)%R) ->
  nth_error gs i = Some g -> (0 <= g <= 1023)%R.
Proof. intros Hall Hg. apply Hall. eapply nth_error_In. exact Hg. Qed.

(** X4: when every greyscale of the dataset lies in [0, 1023], the
    frequency guess of stage 0 is at least pi/2046 (it is +inf when peak and
    minimum coincide) and the frequency upper bound is not negative. *)
Theorem frequency_guess_at_least (gs ys : list R) :
  ys <> [] -> length gs = length ys ->
  (forall g, In g gs -> (0 <= g <= 1023)%R) ->
  exists (gb : GuessBounds xreal) (fq fhi : xreal),
    stage0 (map Fin gs) (map Fin ys) = Ok gb /\
    nth_error (guess gb) 2 = Some fq /\
    nth_error (upper gb) 2 = Some fhi /\
    xle (Fin (PI / 2046)) fq /\
    xle (Fin 0) fhi.
Proof.
  intros Hne Hlen Hrange.
  destruct (stage0_reals gs ys Hne Hlen)
    as (ipk & imn & g_peak & g_min & y_pk & y_mn & y_max & y_min &
        _ & Hgp & _ & Hgm & _ & _ & _ & _ & Hst).
  pose proof (nth_error_In_bounds _ _ _ Hrange Hgp) as Hp.
  pose proof (nth_error_In_bounds _ _ _ Hrange Hgm) as Hm.
  pose proof PI_RGT_0 as Hpi.
  exists (Spec.stage0_box g_peak g_min y_max y_min).
  cbn [Spec.stage0_box lower guess upper nth_error].
  destruct (Req_dec_T g_peak g_min) as [-> | Hd].
  - rewrite freq_guess_coincide. exists PInf, PInf.
    split; [exact Hst|]. split; [reflexivity|]. split.
    + unfold xmul, signed_inf. rewrite Rltb_true by lra. reflexivity.
    + split; reflexivity.
  - rewrite freq_guess_distinct by exact Hd.
    set (d := (2 * Rabs (g_peak - g_min))%R).
    assert (Hd0 : (0 < d)%R).
    { subst d. assert (0 < Rabs (g_peak - g_min))%R by (apply Rabs_pos_lt; lra).
      lra. }
    assert (Hd1 : (d <= 2046)%R).
    { subst d. assert (Rabs (g_peak - g_min) <= 1023)%R
        by (apply Rabs_le; lra). lra. }
    assert (Hq : (PI / 2046 <= PI / d)%R).
    { unfold Rdiv. apply Rmult_le_compat_l; [lra|].
      apply Rinv_le_contravar; lra. }
    exists (Fin (PI / d)), (Fin (2 * (PI / d) - PI / 1023)).
    split; [exact Hst|]. split; [reflexivity|]. split; [reflexivity|].
    split; apply xle_Fin; lra.
Qed.

Lemma frequency_guess_at_least_witness :
  exists (gb : GuessBounds xreal) (fq fhi : xreal),
    stage0 (map Fin [0; 1023]%R) (map Fin [5; 1]%R) = Ok gb /\
    nth_error (guess gb) 2 = Some fq /\
    nth_error (upper gb) 2 = Some fhi /\
    xle (Fin (PI / 2046)) fq /\
    xle (Fin 0) fhi.
Proof.
  apply (frequency_guess_at_least [0; 1023]%R [5; 1]%R);
    [discriminate | reflexivity |].
  intros g Hg. simpl in Hg. intuition lra.
Defined.

(** ** The next stage on finite parameters *)

Lemma EPS_xreal : (EPS : xreal) = Fin (1 / 1000000000000).
Proof. unfold EPS, decimal. cbn. rewrite Reqb_false by lra. reflexivity. Qed.

(** X5: for every finite parameter vector p, the guess and bounds built
    for the next stage are ordered at every position:
    p_i - EPS <= p_i <= p_i + EPS for the inherited parameters and
    -inf <= 0 <= +inf for the new coefficient.  The order is not strict in
    float64: at p_i = 20000 both p_i - EPS and p_i + EPS round to p_i, so
    the interval is the single point p_i. *)
Theorem next_stage_bounds_ordered (p : list R) (k : nat) :
  (k <= length p)%nat ->
  Spec.bound_holds (next_stage (map Fin p)) k /\
  (let gb := next_stage [20000]%float in
   lower gb = [20000; neg_infinity]%float /\
   guess gb = [20000; 0]%float /\
   upper gb = [20000; infinity]%float).
Proof.
  intros Hk. split; [|repeat split].
  unfold Spec.bound_holds, next_stage.
  cbn [guess lower upper]. rewrite EPS_xreal.
  destruct (nth_error p k) as [v|] eqn:Hv.
  - assert (Hlt : (k < length p)%nat)
      by (apply nth_error_Some; rewrite Hv; discriminate).
    rewrite !nth_error_app1 by (rewrite ?length_map; exact Hlt).
    rewrite !nth_error_map, Hv. cbn.
    do 3 eexists. repeat (split; [reflexivity|]).
    split; apply xle_Fin; lra.
  - apply nth_error_None in Hv.
    assert (k = length p) by lia. subst k.
    rewrite !nth_error_app2 by (rewrite ?length_map; lia).
    rewrite !length_map, Nat.sub_diag. cbn.
    do 3 eexists. repeat (split; [reflexivity|]). split; reflexivity.
Qed.

Lemma next_stage_bounds_ordered_witness :
  Spec.bound_holds (next_stage (map Fin [300; 50; 1; 5]%R)) 1 /\
  (let gb := next_stage [20000]%float in
   lower gb = [20000; neg_infinity]%float /\
   guess gb = [20000; 0]%float /\
   upper gb = [20000; infinity]%float).
Proof.
  apply (next_stage_bounds_ordered [300; 50; 1; 5]%R 1). simpl. lia.
Defined.

(** ** The models along the cascade *)

(** X6: the guess of the next stage describes the same curve as the fit it
    comes from: at every real greyscale, the first-order model at
    [p ++ [0.0]] equals the linear model at [p], and the second-order model
    at [p ++ [0.0]] equals the first-order model at [p]. *)
Theorem next_stage_guess_same_curve :
  (forall x x0 a b c : R,
      call_model nonlinear1_cos_square_f (Fin x)
                 (guess (next_stage [Fin x0; Fin a; Fin b; Fin c]))
      = call_model linear_cos_square_f (Fin x)
                   [Fin x0; Fin a; Fin b; Fin c]) /\
  (forall x x0 a b c d : R,
      call_model nonlinear2_cos_square_f (Fin x)
                 (guess (next_stage [Fin x0; Fin a; Fin b; Fin c; Fin d]))
      = call_model nonlinear1_cos_square_f (Fin x)
                   [Fin x0; Fin a; Fin b; Fin c; Fin d]).
Proof.
  split; intros; cbn; do 2 f_equal;
    match goal with
    | |- (_ * (cos ?t1 * _) + _ = _ * (cos ?t2 * _) + _)%R =>
        replace t1 with t2 by ring
    end; reflexivity.
Qed.

Lemma cos_sqr_bounds (t : R) : (0 <= cos t * (cos t * 1) <= 1)%R.
Proof. pose proof (COS_bound t) as [Hlo Hhi]. nra. Qed.

(** X7: with a non-negative amplitude a and floor c, each of the three
    models, called with a parameter vector of its own length, returns a
    value between c and a + c at every real greyscale. *)
Theorem model_value_range (m : model) (x : R) (p : list R) (a c : R) :
  length p = Spec.arity m ->
  nth_error p 1 = Some a ->
  nth_error p 3 = Some c ->
  (0 <= a)%R ->
  exists v, call_model m (Fin x) (map Fin p) = Ok (Fin v) /\
            (c <= v <= a + c)%R.
Proof.
  intros Hlen Ha Hc Hpos.
  destruct m; simpl in Hlen;
    repeat (destruct p as [|? p]; try discriminate);
    simpl in Ha, Hc; injection Ha as ->; injection Hc as ->;
    eexists; (split; [reflexivity|]);
    match goal with
    | |- context [cos ?t] => pose proof (cos_sqr_bounds t)
    end; nra.
Qed.

Lemma model_value_range_witness :
  exists v, call_model linear_cos_square_f (Fin 7)
                       (map Fin [300; 50; 1; 5]%R) = Ok (Fin v) /\
            (5 <= v <= 50 + 5)%R.
Proof.
  apply (model_value_range linear_cos_square_f 7 [300; 50; 1; 5]%R 50 5);
    try reflexivity. lra.
Defined.

(** X8: at the phase offset itself, x = x0, each of the three models
    returns a + c: the phase offset is a peak of the fitted curve. *)
Theorem model_peak_at_phase_offset (m : model) (p : list R) (x0 a c : R) :
  length p = Spec.arity m ->
  nth_error p 0 = Some x0 ->
  nth_error p 1 = Some a ->
  nth_error p 3 = Some c ->
  exists v, call_model m (Fin x0) (map Fin p) = Ok (Fin v) /\
            v = (a + c)%R.
Proof.
  intros Hlen Hx0 Ha Hc.
  destruct m; simpl in Hlen;
    repeat (destruct p as [|? p]; try discriminate);
    simpl in Hx0, Ha, Hc;
    injection Hx0 as ->; injection Ha as ->; injection Hc as ->;
    eexists; (split; [reflexivity|]);
    match goal with
    | |- context [cos ?t] => replace t with 0%R by ring
    end; rewrite cos_0; ring.
Qed.

Lemma model_peak_at_phase_offset_witness :
  exists v, call_model nonlinear2_cos_square_f (Fin 300)
                       (map Fin [300; 50; 1; 5; 2; 3]%R) = Ok (Fin v) /\
            v = (50 + 5)%R.
Proof.
  apply (model_peak_at_phase_offset nonlinear2_cos_square_f
           [300; 50; 1; 5; 2; 3]%R 300 50 5); reflexivity.
Defined.

(** ** A zero intensity in the dataset *)

Lemma xadd_not_finite (a b : xreal) :
  xnonneg a -> xnonneg b ->
  (a = PInf \/ a = NaN) \/ (b = PInf \/ b = NaN) ->
  xadd a b = PInf \/ xadd a b = NaN.
Proof.
  destruct a, b; simpl; intros Ha Hb Hinf;
    try contradiction; try tauto;
    destruct Hinf as [[Hi | Hi] | [Hi | Hi]]; discriminate.
Qed.

Lemma zero_sigma_term (y m : R) :
  y = 0%R ->
  let t := xdiv (xpow (xsub (Fin y) (Fin m)) 2)
                (xpow (xmul (Fin 0.0012) (Fin y)) 2) in
  t = PInf \/ t = NaN.
Proof.
  intros ->. cbn. rewrite Reqb_true by ring.
  unfold signed_inf, Rltb.
  destruct (Rlt_dec 0 _); [left; reflexivity|].
  destruct (Rlt_dec _ 0) as [Hneg|]; [|right; reflexivity].
  exfalso. nra.
Qed.

Lemma sse_linear_reals (gs ys : list R) (x0 a b c : R) :
  length gs = length ys ->
  exists v,
    Spec.weighted_sse linear_cos_square_f (map Fin gs) (map Fin ys)
      (map (fun y => xmul (Fin 0.0012) y) (map Fin ys))
      [Fin x0; Fin a; Fin b; Fin c] = Ok v /\
    xnonneg v /\
    (In 0%R ys -> v = PInf \/ v = NaN).
Proof.
  revert ys. induction gs as [|g gs IH]; intros [|y ys] Hlen;
    try discriminate.
  - exists (Fin 0). split; [reflexivity|]. split; [simpl; lra | intros []].
  - injection Hlen as Hlen.
    destruct (IH ys Hlen) as (rest & Hrest & Hnn & Hzero).
    cbn [map Spec.weighted_sse call_model bind]. rewrite Hrest.
    cbn [bind np_add np_div np_pow np_sub xreal_NumpyFloat
         xreal_NumpyElementary].
    eexists. split; [reflexivity|].
    assert (Hterm : xnonneg
              (xdiv (xpow (xsub (Fin y) (linear_cos_square (Fin g) (Fin x0)
                                           (Fin a) (Fin b) (Fin c))) 2)
                    (xpow (xmul (Fin 0.0012) (Fin y)) 2)))
      by (apply xdiv_nonneg; apply xpow2_nonneg).
    split; [apply xadd_nonneg; assumption|].
    intros [Hy | Hin]; apply xadd_not_finite; try assumption.
    + left. apply (zero_sigma_term y _ Hy).
    + right. apply Hzero. exact Hin.
Qed.

(** X9: if some intensity of a finite dataset is 0, its weight
    sigma_i = REL_Y_ERR * intensity_i is 0 and the weighted least-squares
    objective of the stage-0 call is +inf or nan at every finite parameter
    vector of the linear model: it has no finite value to minimise. *)
Theorem zero_intensity_objective_not_finite
        (gs ys : list R) (gb : GuessBounds xreal) (p : list R) :
  length gs = length ys ->
  length p = 4%nat ->
  In 0%R ys ->
  let c := stage0_call (map Fin gs) (map Fin ys) gb in
  In (Fin 0) (sigma c) /\
  exists v,
    Spec.weighted_sse (f c) (xdata c) (ydata c) (sigma c) (map Fin p) = Ok v /\
    (v = PInf \/ v = NaN).
Proof.
  intros Hlen Hp Hzero c. subst c.
  cbn [stage0_call f xdata ydata sigma]. rewrite REL_Y_ERR_xreal.
  split.
  - apply in_map_iff. exists (Fin 0). split.
    + cbn. f_equal. ring.
    + apply in_map. exact Hzero.
  - do 4 (destruct p as [|? p]; try discriminate).
    destruct p; [|discriminate].
    destruct (sse_linear_reals gs ys r r0 r1 r2 Hlen) as (v & Hv & _ & Hinf).
    exists v. split; [exact Hv | apply Hinf; exact Hzero].
Qed.

Lemma zero_intensity_objective_not_finite_witness :
  let c := stage0_call (map Fin [0; 1]%R) (map Fin [5; 0]%R)
                       (Spec.stage0_box 0 1 5 0) in
  In (Fin 0) (sigma c) /\
  exists v,
    Spec.weighted_sse (f c) (xdata c) (ydata c) (sigma c)
                      (map Fin [0; 5; 1; 0]%R) = Ok v /\
    (v = PInf \/ v = NaN).
Proof.
  apply (zero_intensity_objective_not_finite
           [0; 1]%R [5; 0]%R (Spec.stage0_box 0 1 5 0) [0; 5; 1; 0]%R);
    [reflexivity | reflexivity | simpl; tauto].
Defined.

(** ** Aggregation of a fit that is not the final one *)

(** X10: the aggregation returns exactly when the parameter vector has at
    least six entries and the covariance matrix at least six diagonal
    entries; in every other case (the result of a stage-0 or stage-1 fit,
    for instance) it raises IndexError, and it raises nothing else. *)
Theorem aggregate_needs_six {F : Type} `{NumpyFloat F}
        (p : list F) (cov : list (list F)) :
  ((exists n, aggregate p cov = Ok n) <->
   (6 <= length p)%nat /\ (6 <= length (np_diag cov))%nat) /\
  (forall e, aggregate p cov = Raise e -> e = IndexError).
Proof.
  unfold aggregate, index.
  destruct (nth_error p 4) as [p4|] eqn:H4; cbn [bind].
  2:{ apply nth_error_None in H4. split; [|intros e He; congruence].
      split; [intros [n Hn]; discriminate | lia]. }
  destruct (nth_error p 2) as [p2|] eqn:H2; cbn [bind].
  2:{ apply nth_error_None in H2. split; [|intros e He; congruence].
      split; [intros [n Hn]; discriminate | lia]. }
  destruct (nth_error p 5) as [p5|] eqn:H5; cbn [bind].
  2:{ apply nth_error_None in H5. split; [|intros e He; congruence].
      split; [intros [n Hn]; discriminate | lia]. }
  assert (Hp : (6 <= length p)%nat).
  { assert (5 < length p)%nat by (apply nth_error_Some; congruence). lia. }
  destruct (nth_error (np_diag cov) 2) as [v2|] eqn:Hv2; cbn [bind].
  2:{ apply nth_error_None in Hv2. split; [|intros e He; congruence].
      split; [intros [n Hn]; discriminate | lia]. }
  destruct (nth_error (np_diag cov) 4) as [v4|] eqn:Hv4; cbn [bind].
  2:{ apply nth_error_None in Hv4. split; [|intros e He; congruence].
      split; [intros [n Hn]; discriminate | lia]. }
  destruct (nth_error (np_diag cov) 5) as [v5|] eqn:Hv5; cbn [bind].
  2:{ apply nth_error_None in Hv5. split; [|intros e He; congruence].
      split; [intros [n Hn]; discriminate | lia]. }
  split; [|intros e He; discriminate].
  split; [|intros _; eexists; reflexivity].
  intros _. split; [exact Hp|].
  assert (5 < length (np_diag cov))%nat by (apply nth_error_Some; congruence).
  lia.
Qed.

(** ** Outcomes of the script *)

(** X11: a run of the script ends normally exactly when its trace is one
    fit call that returned followed by the print of the fitted vector; when
    a run ends with an exception nothing has been printed, and an exception
    raised by the solver is the exception the run ends with. *)
Theorem script_outcomes {F : Type} `{NumpyFloat F}
        (solver : FitCall F -> result (FitResult F) -> Prop)
        (files : list (list (F * F)))
        (tr : list (event F)) (out : result unit) :
  runs solver (main files) tr out ->
  (out = Ok tt <->
   exists c popt pcov, tr = [EvFit c (Ok (popt, pcov)); EvPrint popt]) /\
  (forall e, out = Raise e -> forall v, ~ In (EvPrint v) tr) /\
  (forall c e, In (EvFit c (Raise e)) tr -> out = Raise e).
Proof.
  intros Hrun.
  destruct (main_runs_inv solver _ _ _ Hrun)
    as [[-> [e ->]] | (rows & gb & r & _ & _ & _ & _ & -> & ->)].
  - split; [split; [discriminate | intros (c & popt & pcov & Htr); discriminate]|].
    split; [intros e' _ v []| intros c e' []].
  - destruct r as [[popt pcov] | e]; cbn [fst].
    + split; [split; [intros _; eauto | reflexivity]|].
      split; [discriminate|].
      intros c e [Hin | [Hin | []]]; discriminate.
    + split; [split; [discriminate | intros (c & popt & pcov & Htr); discriminate]|].
      split.
      * intros e' _ v [Hin | []]. discriminate.
      * intros c e' [Hin | []]. injection Hin as _ <-. reflexivity.
Qed.

Lemma script_outcomes_witness :
  let gb := {| guess := [0; 5; PrimFloat.div np_pi 2; 1]%float;
               lower := [-50; -5; PrimFloat.div np_pi 1023; 0]%float;
               upper := [50; 15;
                         PrimFloat.sub (PrimFloat.mul 2 (PrimFloat.div np_pi 2))
                                       (PrimFloat.div np_pi 1023);
                         10]%float |} in
  let c0 := stage0_call [0; 1]%float [5; 1]%float gb in
  let tr := [EvFit c0 (Ok (p0 c0, [])); EvPrint (p0 c0)] in
  ((Ok tt : result unit) = Ok tt <->
   exists c popt pcov, tr = [EvFit c (Ok (popt, pcov)); EvPrint popt]) /\
  (forall e, (Ok tt : result unit) = Raise e ->
             forall v, ~ In (EvPrint v) tr) /\
  (forall c e, In (EvFit c (Raise e)) tr -> (Ok tt : result unit) = Raise e).
Proof.
  intros gb c0 tr.
  apply (script_outcomes echo_solver [[(0, 5); (1, 1)]]%float tr (Ok tt)).
  apply (runs_fit echo_solver c0 _ (p0 c0, [])); [reflexivity|].
  apply runs_print. apply runs_return.
Defined.

(** X12: a run of the script makes at most one fit call, and the data
    files after the first have no effect: every run on a list of files is
    also a run when the files after the first are replaced by any others. *)
Theorem only_first_file_is_read {F : Type} `{NumpyFloat F}
        (solver : FitCall F -> result (FitResult F) -> Prop)
        (rows : list (F * F)) (rest rest' : list (list (F * F)))
        (tr : list (event F)) (out : result unit) :
  runs solver (main (rows :: rest)) tr out ->
  runs solver (main (rows :: rest')) tr out /\
  (length (fit_calls tr) <= 1)%nat.
Proof.
  intros Hrun. split; [exact Hrun|].
  destruct (main_runs_inv solver _ _ _ Hrun)
    as [[-> _] | (rows' & gb & r & _ & _ & _ & _ & -> & _)].
  - simpl. lia.
  - destruct r; simpl; lia.
Qed.

Lemma only_first_file_is_read_witness :
  let gb := {| guess := [0; 5; PrimFloat.div np_pi 2; 1]%float;
               lower := [-50; -5; PrimFloat.div np_pi 1023; 0]%float;
               upper := [50; 15;
                         PrimFloat.sub (PrimFloat.mul 2 (PrimFloat.div np_pi 2))
                                       (PrimFloat.div np_pi 1023);
                         10]%float |} in
  let c0 := stage0_call [0; 1]%float [5; 1]%float gb in
  let tr := [EvFit c0 (Ok (p0 c0, [])); EvPrint (p0 c0)] in
  runs echo_solver (main [[(0, 5); (1, 1)]; [(0, 7); (1, 2)]]%float) tr (Ok tt)
  /\ (length (fit_calls tr) <= 1)%nat.
Proof.
  intros gb c0 tr.
  apply (only_first_file_is_read echo_solver [(0, 5); (1, 1)]%float
           [] [[(0, 7); (1, 2)]%float] tr (Ok tt)).
  apply (runs_fit echo_solver c0 _ (p0 c0, [])); [reflexivity|].
  apply runs_print. apply runs_return.
Defined.

(** * Further properties of [slm_code/slm.py] *)

Lemma register_check_all :
  forallb
    (fun n =>
       let r := Z.of_nat n in
       match Slm.read_then_write r, Slm.cycles 4 r with
       | Some r1, Some r4 =>
           ((r1 =? r)%Z || (r1 =? r - 1)%Z) &&
           (r - 4 <=? r4)%Z && (r4 <=? r)%Z &&
           match Slm.read_then_write r4 with
           | Some r5 => (r5 =? r4)%Z
           | None => false
           end
       | _, _ => false
       end)
    (seq 0 1000) = true.
Proof. vm_compute. reflexivity. Qed.

(** X13: for every register value r in 0..999, reading it into Phase and
    writing Phase back with Set Tuning gives r or r - 1, never anything
    else; repeating the cycle, the register stops changing after at most
    four cycles, at most 4 below where it started (116 ends at 112). *)
Theorem register_drift_is_bounded (r : Z) :
  (0 <= r < 1000)%Z ->
  exists r1 r4,
    Slm.read_then_write r = Some r1 /\
    (r1 = r \/ r1 = (r - 1)%Z) /\
    Slm.cycles 4 r = Some r4 /\
    (r - 4 <= r4 <= r)%Z /\
    Slm.read_then_write r4 = Some r4.
Proof.
  intros Hr.
  pose proof register_check_all as Hall.
  rewrite forallb_forall in Hall.
  specialize (Hall (Z.to_nat r)).
  rewrite Z2Nat.id in Hall by lia.
  assert (Hin : In (Z.to_nat r) (seq 0 1000)) by (apply in_seq; lia).
  specialize (Hall Hin). cbv zeta in Hall.
  destruct (Slm.read_then_write r) as [r1|]; [|discriminate].
  destruct (Slm.cycles 4 r) as [r4|]; [|discriminate].
  destruct (Slm.read_then_write r4) as [r5|] eqn:H5;
    [|rewrite !andb_false_r in Hall; discriminate].
  repeat (apply andb_true_iff in Hall as [Hall ?]).
  exists r1, r4. split; [reflexivity|]. split.
  - apply orb_true_iff in Hall as [Heq | Heq]; apply Z.eqb_eq in Heq; auto.
  - split; [reflexivity|]. split; [lia|].
    rewrite H5. f_equal. apply Z.eqb_eq. assumption.
Qed.

Lemma register_drift_is_bounded_witness :
  exists r1 r4,
    Slm.read_then_write 116 = Some r1 /\
    (r1 = 116%Z \/ r1 = (116 - 1)%Z) /\
    Slm.cycles 4 116 = Some r4 /\
    (116 - 4 <= r4 <= 116)%Z /\
    Slm.read_then_write r4 = Some r4.
Proof. apply (register_drift_is_bounded 116). lia. Defined.

(** ** The actions of the piece *)

(** X14: in debug mode no action calls the hardware and none raises; the
    two state flags, the Display Number, the Wavelength, the Phase and the
    attributes are left as they were (only Incr Contrast changes a
    parameter, the Contrast). *)
Theorem debug_mode_is_offline (sb : Piece.spinboxes) (hw : Piece.hardware)
        (past : list Piece.call) (a : Piece.name) (st : Piece.state) :
  let '(tr, (st', o)) := Piece.run hw past (Piece.perform true sb a st) in
  Piece.calls tr = [] /\
  o = Piece.Returned /\
  Piece.slm_open st' = Piece.slm_open st /\
  Piece.display_open st' = Piece.display_open st /\
  Piece.display_number st' = Piece.display_number st /\
  Piece.wavelength st' = Piece.wavelength st /\
  Piece.phase st' = Piece.phase st /\
  Piece.attr_slm_number st' = Piece.attr_slm_number st /\
  (a <> Piece.IncrContrast -> st' = st).
Proof.
  destruct a; cbn; repeat split; congruence.
Qed.

(** X15: outside debug mode, while the SLM is not open, every action other
    than Toggle Open raises SlmError('SLM is not open.') without a single
    hardware call and without changing the state. *)
Theorem closed_slm_refuses_actions (sb : Piece.spinboxes)
        (hw : Piece.hardware) (past : list Piece.call)
        (a : Piece.name) (st : Piece.state) :
  Piece.slm_open st = false ->
  a <> Piece.ToggleOpen ->
  Piece.run hw past (Piece.perform false sb a st)
  = ([], (st, Piece.Raised (Piece.SlmError "SLM is not open."))).
Proof.
  intros Hclosed Ha.
  destruct a; try congruence; cbn; unfold Piece.ensure_slm_open;
    rewrite Hclosed; reflexivity.
Qed.

Lemma closed_slm_refuses_actions_witness :
  Piece.run (Piece.always_ok 575 200) []
            (Piece.perform false Piece.plain_spinboxes Piece.SetTuning
                           Piece.initial)
  = ([], (Piece.initial, Piece.Raised (Piece.SlmError "SLM is not open."))).
Proof.
  apply (closed_slm_refuses_actions Piece.plain_spinboxes
           (Piece.always_ok 575 200) [] Piece.SetTuning Piece.initial);
    [reflexivity | discriminate].
Defined.

(** Evaluates a run of an action by cases on the state and on what the
    hardware answers. *)
Ltac run_cases :=
  repeat (cbn;
          match goal with
          | |- context [if negb (Piece.status_ok ?r) then _ else _] =>
              destruct (Piece.status_ok r) eqn:?
          | |- context [match Piece.attr_slm_number ?st with _ => _ end] =>
              destruct (Piece.attr_slm_number st) eqn:?
          | |- context [match Piece.attr_flag ?st with _ => _ end] =>
              destruct (Piece.attr_flag st) eqn:?
          | |- context [match Piece.display_number ?st with _ => _ end] =>
              destruct (Piece.display_number st) eqn:?
          | |- context [Piece.display_open ?st] =>
              destruct (Piece.display_open st) eqn:?
          | |- context [Piece.slm_open ?st] =>
              destruct (Piece.slm_open st) eqn:?
          | |- context [match Slm.py_int ?x with _ => _ end] =>
              destruct (Slm.py_int x) eqn:?
          end).

(** X16: outside debug mode, while the SLM is open but answers the status
    read with anything other than SLM_OK, every action other than Toggle
    Open makes that one status read and nothing else: it raises
    SlmError('SLM is not ready.') and leaves the state as it was. *)
Theorem busy_slm_refuses_actions (sb : Piece.spinboxes)
        (hw : Piece.hardware) (past : list Piece.call)
        (a : Piece.name) (st : Piece.state) (n : Z) :
  Piece.slm_open st = true ->
  Piece.attr_slm_number st = Some n ->
  Piece.status_ok (hw past (Piece.SLM_Ctrl_ReadSU n)) = false ->
  a <> Piece.ToggleOpen ->
  Piece.run hw past (Piece.perform false sb a st)
  = ([Piece.Called (Piece.SLM_Ctrl_ReadSU n)
                   (hw past (Piece.SLM_Ctrl_ReadSU n))],
     (st, Piece.Raised (Piece.SlmError "SLM is not ready."))).
Proof.
  intros Hopen Hn Hbusy Ha.
  destruct a; try congruence; cbn;
    unfold Piece.ensure_slm_open, Piece.ensure_slm_ready;
    rewrite Hopen; cbn; rewrite Hn; cbn; rewrite Hbusy; reflexivity.
Qed.

Lemma busy_slm_refuses_actions_witness :
  let st := Piece.set_slm_open true (Piece.set_attrs Piece.initial) in
  Piece.run Piece.never_ok [] (Piece.perform false Piece.plain_spinboxes
                                             Piece.WriteContrast st)
  = ([Piece.Called (Piece.SLM_Ctrl_ReadSU 1)
                   (Piece.never_ok [] (Piece.SLM_Ctrl_ReadSU 1))],
     (st, Piece.Raised (Piece.SlmError "SLM is not ready."))).
Proof.
  intros st.
  apply (busy_slm_refuses_actions Piece.plain_spinboxes Piece.never_ok []
           Piece.WriteContrast st 1);
    [reflexivity | reflexivity | reflexivity | discriminate].
Defined.

(** X17: Toggle Open outside debug mode changes the open flag exactly when
    it returns normally; when it raises, the flag, the Wavelength and the
    Phase are as before.  In the opening direction it never calls
    SLM_Ctrl_Close (also not after SLM_Ctrl_Open succeeded and a later call
    failed), it leaves the display flag alone, and a successful opening is
    the three calls Open, WriteVI, ReadWL. *)
Theorem toggle_open_flag (sb : Piece.spinboxes) (hw : Piece.hardware)
        (past : list Piece.call) (st : Piece.state) :
  let '(tr, (st', o)) := Piece.run hw past (Piece.toggle_open false sb st) in
  (o = Piece.Returned -> Piece.slm_open st' = negb (Piece.slm_open st)) /\
  (o <> Piece.Returned ->
   Piece.slm_open st' = Piece.slm_open st /\
   Piece.wavelength st' = Piece.wavelength st /\
   Piece.phase st' = Piece.phase st) /\
  (Piece.slm_open st = false ->
   Piece.display_open st' = Piece.display_open st /\
   (forall n, ~ In (Piece.SLM_Ctrl_Close n) (Piece.calls tr)) /\
   (o = Piece.Returned ->
    Piece.calls tr = [Piece.SLM_Ctrl_Open 1; Piece.SLM_Ctrl_WriteVI 1 1;
                      Piece.SLM_Ctrl_ReadWL 1])).
Proof.
  unfold Piece.toggle_open, Piece.read_registers, Piece.close_slm.
  run_cases;
    repeat split; intros; try congruence; try reflexivity;
    try (intros [Hc | Hc]; try discriminate; revert Hc);
    simpl; intuition (try discriminate).
Qed.

(** X18: Set Tuning never changes the state, however it ends.  It writes
    the phase registers only outside debug mode, with the SLM open, the
    display open and the status read answered SLM_OK; the call is then the
    second and last of the action and carries the Wavelength parameter and
    int(Phase * 100). *)
Theorem set_tuning_write (debug : bool)
        (hw : Piece.hardware) (past : list Piece.call) (st : Piece.state) :
  let '(tr, (st', o)) := Piece.run hw past (Piece.set_tuning debug st) in
  st' = st /\
  forall n w p,
    In (Piece.SLM_Ctrl_WriteWL n w p) (Piece.calls tr) ->
    debug = false /\
    Piece.slm_open st = true /\
    Piece.display_open st = true /\
    Piece.attr_slm_number st = Some n /\
    Piece.status_ok (hw past (Piece.SLM_Ctrl_ReadSU n)) = true /\
    w = Piece.wavelength st /\
    Slm.set_tuning_phase (Piece.phase st) = Some p /\
    Piece.calls tr = [Piece.SLM_Ctrl_ReadSU n; Piece.SLM_Ctrl_WriteWL n w p].
Proof.
  unfold Piece.set_tuning, Piece.ensured, Piece.ensure_slm_open,
    Piece.ensure_slm_ready, Piece.ensure_display_open, Piece.int_of_float,
    Slm.set_tuning_phase.
  destruct debug; run_cases;
    (split; [reflexivity|]); intros n w p Hin; simpl in Hin;
    repeat match goal with
           | H : _ \/ _ |- _ => destruct H
           | H : False |- _ => destruct H
           end;
    try discriminate;
    match goal with
    | H : Piece.SLM_Ctrl_WriteWL _ _ _ = Piece.SLM_Ctrl_WriteWL _ _ _ |- _ =>
        injection H as <- <- <-
    end;
    repeat match goal with
           | H : Some _ = Some _ |- _ => injection H as H; try subst
           end;
    repeat split; assumption || reflexivity.
Qed.

(** X19: when Toggle Open closes an SLM whose display is open, it calls
    SLM_Ctrl_Close only after SLM_Disp_Close on the selected display has
    succeeded and the display flag has been cleared; with no display
    selected it raises SlmError('Set Display Number') without any call. *)
Theorem display_closed_before_slm (sb : Piece.spinboxes)
        (hw : Piece.hardware) (past : list Piece.call) (st : Piece.state) :
  Piece.slm_open st = true ->
  Piece.display_open st = true ->
  let '(tr, (st', o)) := Piece.run hw past (Piece.toggle_open false sb st) in
  (Piece.display_number st = None ->
   tr = [] /\ o = Piece.Raised (Piece.SlmError "Set Display Number")) /\
  (forall n,
      In (Piece.SLM_Ctrl_Close n) (Piece.calls tr) ->
      exists d,
        Piece.display_number st = Some d /\
        Piece.calls tr = [Piece.SLM_Disp_Close d; Piece.SLM_Ctrl_Close 1] /\
        Piece.status_ok (hw past (Piece.SLM_Disp_Close d)) = true /\
        Piece.display_open st' = false).
Proof.
  intros Hopen Hdisp.
  unfold Piece.toggle_open, Piece.close_slm. cbn.
  rewrite Hopen, Hdisp. cbn.
  destruct (Piece.display_number st) as [d|] eqn:Hd; run_cases;
    (split; [intros; try discriminate; split; reflexivity|]);
    intros n Hin; simpl in Hin;
    repeat match goal with
           | H : _ \/ _ |- _ => destruct H
           | H : False |- _ => destruct H
           end;
    try discriminate;
    exists d; repeat split; assumption || reflexivity.
Qed.

Lemma display_closed_before_slm_witness :
  let st := Piece.set_display_open true
              (Piece.set_display_number (Some 2%Z)
                 (Piece.set_slm_open true (Piece.set_attrs Piece.initial))) in
  let '(tr, (st', o)) :=
    Piece.run (Piece.always_ok 575 200) []
              (Piece.toggle_open false Piece.plain_spinboxes st) in
  (Piece.display_number st = None ->
   tr = [] /\ o = Piece.Raised (Piece.SlmError "Set Display Number")) /\
  (forall n,
      In (Piece.SLM_Ctrl_Close n) (Piece.calls tr) ->
      exists d,
        Piece.display_number st = Some d /\
        Piece.calls tr = [Piece.SLM_Disp_Close d; Piece.SLM_Ctrl_Close 1] /\
        Piece.status_ok (Piece.always_ok 575 200 [] (Piece.SLM_Disp_Close d))
        = true /\
        Piece.display_open st' = false).
Proof.
  intros st.
  apply (display_closed_before_slm Piece.plain_spinboxes
           (Piece.always_ok 575 200) [] st); reflexivity.
Defined.

(** ** Sessions *)

Lemma consistent_initial : Piece.consistent Piece.initial.
Proof. split; discriminate. Qed.

(** One step keeps the state consistent and does not end in an
    AttributeError. *)
Lemma step_keeps_consistent (debug : bool) (sb : Piece.spinboxes)
      (hw : Piece.hardware) (past : list Piece.call)
      (st : Piece.state) (s : Piece.step) :
  Piece.consistent st ->
  let '(tr, (st', o)) := Piece.do_step debug sb hw past st s in
  Piece.consistent st' /\ o <> Piece.Raised Piece.AttributeError.
Proof.
  intros [Hattrs Hdisp].
  destruct s as [a | v | v | v | v];
    [|split; [split; assumption | discriminate] ..].
  unfold Piece.do_step.
  destruct a, debug;
    unfold Piece.perform, Piece.toggle_open, Piece.settings,
      Piece.display_settings, Piece.toggle_display, Piece.phase_settings,
      Piece.set_tuning, Piece.write_contrast, Piece.incr_contrast,
      Piece.empty_action, Piece.gray_scale, Piece.read_registers,
      Piece.close_slm, Piece.int_of_float, Piece.ensured,
      Piece.ensure_slm_open, Piece.ensure_slm_ready,
      Piece.ensure_display_open, Piece.ensure_display_number;
    run_cases;
    try (destruct (PrimFloat.is_nan _));
    (split; [|discriminate || (intros Habs; injection Habs; discriminate)
              || (destruct Hattrs; congruence)]);
    unfold Piece.consistent; cbn;
    try (split; intros; try discriminate; try congruence;
         try (split; reflexivity); auto; fail);
    intuition congruence.
Qed.

(** X20: in every session that starts from a freshly constructed piece
    (any sequence of actions and parameter edits, any hardware answers, in
    or out of debug mode), no step ends in an AttributeError: the
    attributes that Toggle Open sets are never read before it has set them.
    Throughout, an open SLM has [_slm_number] and [_flag] set, and the
    display is never flagged open while the SLM is flagged closed. *)
Theorem session_never_reads_unset_attribute (debug : bool)
        (sb : Piece.spinboxes) (hw : Piece.hardware)
        (steps : list Piece.step) :
  let '(final, outcomes) :=
    Piece.session debug sb hw [] Piece.initial steps in
  Piece.consistent final /\
  ~ In (Piece.Raised Piece.AttributeError) outcomes.
Proof.
  assert (Hgen : forall past st,
             Piece.consistent st ->
             let '(final, outcomes) :=
               Piece.session debug sb hw past st steps in
             Piece.consistent final /\
             ~ In (Piece.Raised Piece.AttributeError) outcomes).
  { induction steps as [|s rest IH]; intros past st Hst.
    - simpl. split; [exact Hst | intros []].
    - cbn [Piece.session].
      pose proof (step_keeps_consistent debug sb hw past st s Hst) as Hstep.
      destruct (Piece.do_step debug sb hw past st s) as [tr [st' o]].
      destruct Hstep as [Hst' Ho].
      specialize (IH (past ++ Piece.calls tr) st' Hst').
      destruct (Piece.session debug sb hw (past ++ Piece.calls tr) st' rest)
        as [final outcomes].
      destruct IH as [Hfinal Hnone].
      split; [exact Hfinal|].
      intros [Heq | Hin]; [congruence | exact (Hnone Hin)]. }
  apply Hgen. exact consistent_initial.
Qed.

(** X21: Incr Contrast stores the incremented Contrast before it writes to
    the display: when the ensurers pass and the SLM_Disp_GrayScale call
    fails, the action raises SlmError('Contrast increment unsuccessful.')
    and the Contrast parameter nevertheless holds the new value, which is
    the value the failed call carried.  Write Contrast, in contrast, never
    changes the state: in or out of debug mode, in every state, whatever the
    hardware answers and however the action ends. *)
Theorem incr_contrast_keeps_increment (sb : Piece.spinboxes)
        (hw : Piece.hardware) (past : list Piece.call)
        (st : Piece.state) (n d : Z) (fl : Piece.flags) :
  Piece.slm_open st = true ->
  Piece.display_open st = true ->
  Piece.attr_slm_number st = Some n ->
  Piece.attr_flag st = Some fl ->
  Piece.display_number st = Some d ->
  Piece.status_ok (hw past (Piece.SLM_Ctrl_ReadSU n)) = true ->
  let c' := Piece.store_contrast sb (Piece.contrast st)
                                 (Piece.contrast st + 1) in
  let write := Piece.SLM_Disp_GrayScale d fl c' in
  Piece.status_ok (hw (past ++ [Piece.SLM_Ctrl_ReadSU n]) write) = false ->
  (let '(tr, (st', o)) :=
     Piece.run hw past (Piece.incr_contrast false sb st) in
   Piece.calls tr = [Piece.SLM_Ctrl_ReadSU n; write] /\
   o = Piece.Raised (Piece.SlmError "Contrast increment unsuccessful.") /\
   st' = Piece.set_contrast c' st) /\
  (forall (debug : bool) (hw0 : Piece.hardware) (past0 : list Piece.call)
          (st0 : Piece.state),
      let '(tr, (st', o)) :=
        Piece.run hw0 past0 (Piece.write_contrast debug st0) in
      st' = st0).
Proof.
  intros Hopen Hdisp Hn Hfl Hd Hready c' write Hfail.
  subst c' write. split.
  - unfold Piece.incr_contrast, Piece.gray_scale, Piece.ensured,
      Piece.ensure_slm_open, Piece.ensure_slm_ready,
      Piece.ensure_display_open.
    cbn. rewrite Hopen. cbn. rewrite Hn. cbn. rewrite Hready. cbn.
    rewrite Hdisp. cbn. rewrite Hd, Hfl. cbn. rewrite Hfail. cbn.
    repeat split.
  - intros debug hw0 past0 st0.
    unfold Piece.write_contrast, Piece.gray_scale, Piece.ensured,
      Piece.ensure_slm_open, Piece.ensure_slm_ready,
      Piece.ensure_display_open.
    destruct debug; run_cases; reflexivity.
Qed.

Lemma incr_contrast_keeps_increment_witness :
  let st := Piece.set_display_open true
              (Piece.set_display_number (Some 2%Z)
                 (Piece.set_slm_open true (Piece.set_attrs Piece.initial))) in
  let hw : Piece.hardware :=
    fun past _ => {| Piece.status_ok := Nat.eqb (length past) 0;
                     Piece.wavelength_out := 0; Piece.phase_out := 0 |} in
  let write := Piece.SLM_Disp_GrayScale 2 Piece.FLAGS_RATE120 1 in
  (let '(tr, (st', o)) :=
     Piece.run hw [] (Piece.incr_contrast false Piece.plain_spinboxes st) in
   Piece.calls tr = [Piece.SLM_Ctrl_ReadSU 1; write] /\
   o = Piece.Raised (Piece.SlmError "Contrast increment unsuccessful.") /\
   st' = Piece.set_contrast 1 st) /\
  (forall (debug : bool) (hw0 : Piece.hardware) (past0 : list Piece.call)
          (st0 : Piece.state),
      let '(tr, (st', o)) :=
        Piece.run hw0 past0 (Piece.write_contrast debug st0) in
      st' = st0).
Proof.
  intros st hw write.
  apply (incr_contrast_keeps_increment Piece.plain_spinboxes hw [] st 1 2
           Piece.FLAGS_RATE120); reflexivity.
Defined.

(** X22: open the SLM, select a display, open it and press Set Tuning
    without touching Phase, on hardware whose calls all succeed and whose
    phase register holds r (spinboxes storing what they are given): Set
    Tuning writes back the Wavelength that was read and, for the phase,
    int((r / 100) * 100), the value [read_then_write r], not r itself. *)
Theorem reopen_and_set_tuning (wl r d : Z) (past : list Piece.call) :
  let hw := Piece.always_ok wl r in
  let '(st3, outcomes) :=
    Piece.session false Piece.plain_spinboxes hw [] Piece.initial
                  [Piece.Do Piece.ToggleOpen;
                   Piece.EditDisplayNumber (Some d);
                   Piece.Do Piece.ToggleDisplay] in
  outcomes = [Piece.Returned; Piece.Returned; Piece.Returned] /\
  Piece.wavelength st3 = wl /\
  Piece.phase st3 = Slm.read_phase r /\
  let '(tr, (st', o)) := Piece.run hw past (Piece.set_tuning false st3) in
  Piece.calls tr
  = match Slm.read_then_write r with
    | Some r' => [Piece.SLM_Ctrl_ReadSU 1; Piece.SLM_Ctrl_WriteWL 1 wl r']
    | None => [Piece.SLM_Ctrl_ReadSU 1]
    end.
Proof.
  cbn. repeat (split; [reflexivity|]).
  unfold Piece.int_of_float, Slm.read_then_write, Slm.set_tuning_phase.
  destruct (Slm.py_int _); reflexivity.
Qed.
